(** * Training orchestrator of [recognition/47364417/train.py]

    A shallow embedding of [train_model]: the epoch loop with its train,
    validation and test passes, the early stop, the periodic checkpoint,
    the final model file and the plotting section.

    What the script delegates to libraries (the network, the loss, the
    optimiser update, the data loaders) is an interface, [Backend] and
    [Env]; what the script itself does (accumulators, reductions, history
    lists, control flow, file writes, uncaught exceptions) is written out.

    Numbers.  A Python [float] and a float64 tensor element are modelled
    by [double]: exact rationals extended with the IEEE special values, so
    that the two divisions of the script can be told apart (Python's [/]
    raises on a zero divisor, a tensor's [/] yields [nan] or [inf]).
    Rounding of finite values is not modelled.  Counts of samples are
    element counts of in-memory tensors and are modelled by [Z]. *)

From Stdlib Require Import ZArith QArith List Bool Lia.
From stdpp Require Import gmap strings list pretty.

Local Open Scope Z_scope.

(** ** Doubles *)

Inductive double :=
| Fin (q : Q)
| PInf
| NInf
| NaN.

Definition dneg (a : double) : double :=
  match a with
  | Fin q => Fin (- q)%Q
  | PInf => NInf
  | NInf => PInf
  | NaN => NaN
  end.

(** An infinity scaled by the sign of a finite factor. *)
Definition dscale_inf (inf : double) (q : Q) : double :=
  match (q ?= 0)%Q with
  | Gt => inf
  | Lt => dneg inf
  | Eq => NaN
  end.

Definition dadd (a b : double) : double :=
  match a, b with
  | NaN, _ | _, NaN => NaN
  | Fin x, Fin y => Fin (x + y)%Q
  | PInf, NInf | NInf, PInf => NaN
  | PInf, _ | _, PInf => PInf
  | NInf, _ | _, NInf => NInf
  end.

Definition dmul (a b : double) : double :=
  match a, b with
  | NaN, _ | _, NaN => NaN
  | Fin x, Fin y => Fin (x * y)%Q
  | Fin x, i => dscale_inf i x
  | i, Fin y => dscale_inf i y
  | PInf, PInf | NInf, NInf => PInf
  | PInf, NInf | NInf, PInf => NInf
  end.

(** IEEE division, the one a tensor performs: a zero divisor raises
    nothing. *)
Definition ddiv (a b : double) : double :=
  match a, b with
  | NaN, _ | _, NaN => NaN
  | Fin x, Fin y =>
      match (y ?= 0)%Q with
      | Eq => dscale_inf PInf x
      | _ => Fin (x / y)%Q
      end
  | Fin _, _ => Fin 0
  | i, Fin y => match (y ?= 0)%Q with Lt => dneg i | _ => i end
  | _, _ => NaN
  end.

(** [a >= b]; false as soon as one side is [nan]. *)
Definition dge (a b : double) : bool :=
  match a, b with
  | NaN, _ | _, NaN => false
  | Fin x, Fin y => Qle_bool y x
  | PInf, _ => true
  | _, NInf => true
  | _, _ => false
  end.

Definition of_int (n : Z) : double := Fin (inject_Z n).

(** ** Python values and exceptions *)

Inductive exn :=
| ZeroDivisionError
| AttributeError (attr : string)
| NameError (name : string).

Inductive res (A : Type) :=
| Ok (a : A)
| Err (e : exn).
Arguments Ok {A} a.
Arguments Err {A} e.

(** Elements of the script's Python lists. *)
Inductive pyval :=
| PFloat (d : double)
| PInt (n : Z).

(** [running_corrects] starts as the Python integer 0 and becomes a
    0-dimensional integer tensor with the first [+= torch.sum(...)]. *)
Inductive counter :=
| PyInt (n : Z)
| Tensor (n : Z).

Definition counter_val (c : counter) : Z :=
  match c with PyInt n | Tensor n => n end.

(** [c += torch.sum(preds == labels.data)] *)
Definition counter_add (c : counter) (t : Z) : counter :=
  Tensor (counter_val c + t).

(** [c.double()]: a method of tensors, which a Python integer lacks. *)
Definition counter_double (c : counter) : res double :=
  match c with
  | PyInt _ => Err (AttributeError "double")
  | Tensor n => Ok (of_int n)
  end.

(** Python's [x / n] on a float and an integer. *)
Definition py_truediv (x : double) (n : Z) : res double :=
  if n =? 0 then Err ZeroDivisionError else Ok (ddiv x (of_int n)).

(** [c.double() / n * 100] *)
Definition accuracy_percent (c : counter) (n : Z) : res double :=
  match counter_double c with
  | Ok d => Ok (dmul (ddiv d (of_int n)) (of_int 100))
  | Err e => Err e
  end.

(** [torch.sum(preds == labels.data)] *)
Definition count_eq (preds labels : list Z) : Z :=
  Z.of_nat (length (filter (λ pl : Z * Z, bool_decide (pl.1 = pl.2)) (zip preds labels))).

(** [os.path.join] of a relative directory and a file name. *)
Definition path_join (dir name : string) : string := dir +:+ "/" +:+ name.

(** ** The libraries *)

(** The network, the loss and the optimiser, as far as the script uses
    them.  [forward_length] is the shape contract of a classifier: one
    row of logits per input of the batch. *)
Class Backend := {
  Input : Type;
  Logits : Type;
  Params : Type;
  Grads : Type;
  AdamState : Type;
  ScalerState : Type;
  (** [model(inputs)] under autocast, in training or evaluation mode *)
  forward : bool → Params → list Input → list Logits;
  forward_length : ∀ mode p xs, length (forward mode p xs) = length xs;
  (** the index part of [torch.max(outputs, 1)], per row *)
  argmax : Logits → Z;
  (** [nn.CrossEntropyLoss()], read back with [loss.item()] *)
  criterion : list Logits → list Z → double;
  (** [optimizer.zero_grad()] then [scaler.scale(loss).backward()] *)
  backward : ScalerState → bool → Params → list Input → list Z → Grads;
  (** [scaler.step(optimizer)]: Adam's update at the given learning rate,
      or no update when the gradients overflowed; it leaves the learning
      rate of the parameter group alone *)
  scaler_step : ScalerState → Q → AdamState → Params → Grads → AdamState * Params;
  (** [scaler.update()] *)
  scaler_update : ScalerState → Grads → ScalerState;
  (** [create_model(num_classes)], moved to the device *)
  create_model : nat → Params;
  (** the fresh state of [optim.Adam(model.parameters(), ...)] *)
  Adam : Params → AdamState;
  (** [torch.cuda.amp.GradScaler()] *)
  GradScaler : ScalerState;
}.

(** ** The monad of the script: state, and exceptions nobody catches

    An exception ends the run; the state reached so far (the files on
    disk among it) stays. *)

Definition M (St A : Type) : Type := St → res A * St.

Definition ret {St A} (a : A) : M St A := λ s, (Ok a, s).

Definition bind {St A C} (m : M St A) (k : A → M St C) : M St C :=
  λ s, match m s with
       | (Ok a, s') => k a s'
       | (Err e, s') => (Err e, s')
       end.

Definition get {St} : M St St := λ s, (Ok s, s).
Definition modify {St} (f : St → St) : M St unit := λ s, (Ok tt, f s).
Definition lift {St A} (r : res A) : M St A := λ s, (r, s).
Definition raise {St A} (e : exn) : M St A := lift (Err e).

Notation "'do' x <- m ; k" := (bind m (λ x, k))
  (at level 10, x name, m at level 100, k at level 200, only parsing).
Notation "'do' ' p <- m ; k" := (bind m (λ x, let 'p := x in k))
  (at level 10, p pattern, m at level 100, k at level 200, only parsing).

(** [for x in xs: acc = body(acc, x)] *)
Fixpoint for_each {St A Acc} (body : Acc → A → M St Acc) (xs : list A) (acc : Acc) : M St Acc :=
  match xs with
  | [] => ret acc
  | x :: xs' => do acc' <- body acc x; for_each body xs' acc'
  end.

Inductive split := train | val | test.

Section TrainModel.
Context {B : Backend}.

Definition batch : Type := list (Input * Z).

Definition inputs_of (b : batch) : list Input := map fst b.
Definition labels_of (b : batch) : list Z := map snd b.
(** [inputs.size(0)] *)
Definition size0 (b : batch) : Z := Z.of_nat (length (inputs_of b)).

(** What the run receives from outside: the device query and the result
    of [get_dataloaders].  A loader is iterated once per epoch; the
    batches it yields may differ from one epoch to the next. *)
Record Env := {
  cuda_available : bool;
  dataloaders : split → nat → list batch;
  class_names : list string;
}.

(** ** State of a run *)

Record optimizer := {
  lr : Q;
  adam : AdamState;
}.

(** [optim.lr_scheduler.StepLR] *)
Record scheduler := {
  step_size : Z;
  gamma : Q;
  last_epoch : Z;
}.

Inductive file :=
| CheckpointFile (epoch : nat) (model_state_dict : Params)
    (optimizer_state_dict : optimizer) (loss : double)
| StateDictFile (model_state_dict : Params)
| FigureFile (series : list (list pyval * string))
| ConfusionFile (labels preds : list pyval) (display_labels : list string).

Inductive message :=
| MsgDevice (cuda : bool)
| MsgClasses (names : list string)
| MsgTrain (epoch num_epochs : nat) (loss acc : double)
| MsgVal (loss acc : double)
| MsgEarlyStop (epoch : nat)
| MsgCheckpoint (epoch : nat)
| MsgFinal (path : string).

Record state := {
  params : Params;
  training : bool;
  optim : optimizer;
  sched : scheduler;
  scaler : ScalerState;
  (** the list-valued local variables of [train_model], by name *)
  locals : gmap string (list pyval);
  (** series drawn on the current matplotlib figure *)
  figure : list (list pyval * string);
  (** directories made and files written by the run, oldest first *)
  dirs : list string;
  files : list (string * file);
  stdout : list message;
}.

Definition set_training (b : bool) (s : state) : state :=
  {| params := params s; training := b; optim := optim s; sched := sched s;
     scaler := scaler s; locals := locals s; figure := figure s;
     dirs := dirs s; files := files s; stdout := stdout s |}.

Definition set_learner (p : Params) (a : AdamState) (sc : ScalerState) (s : state) : state :=
  {| params := p; training := training s;
     optim := {| lr := lr (optim s); adam := a |}; sched := sched s;
     scaler := sc; locals := locals s; figure := figure s;
     dirs := dirs s; files := files s; stdout := stdout s |}.

Definition set_locals (l : gmap string (list pyval)) (s : state) : state :=
  {| params := params s; training := training s; optim := optim s; sched := sched s;
     scaler := scaler s; locals := l; figure := figure s;
     dirs := dirs s; files := files s; stdout := stdout s |}.

Definition set_figure (f : list (list pyval * string)) (s : state) : state :=
  {| params := params s; training := training s; optim := optim s; sched := sched s;
     scaler := scaler s; locals := locals s; figure := f;
     dirs := dirs s; files := files s; stdout := stdout s |}.

Definition add_file (path : string) (f : file) (s : state) : state :=
  {| params := params s; training := training s; optim := optim s; sched := sched s;
     scaler := scaler s; locals := locals s; figure := figure s;
     dirs := dirs s; files := files s ++ [(path, f)]; stdout := stdout s |}.

Definition add_message (m : message) (s : state) : state :=
  {| params := params s; training := training s; optim := optim s; sched := sched s;
     scaler := scaler s; locals := locals s; figure := figure s;
     dirs := dirs s; files := files s; stdout := stdout s ++ [m] |}.

Definition print (m : message) : M state unit := modify (add_message m).

(** Reading a local list; an unbound name is a [NameError]. *)
Definition load (name : string) : M state (list pyval) :=
  do s <- get;
  match locals s !! name with
  | Some l => ret l
  | None => raise (NameError name)
  end.

(** [name = []] *)
Definition assign_empty (name : string) : M state unit :=
  modify (λ s, set_locals (<[name := []]> (locals s)) s).

(** [name.extend(vs)]; [name.append(v)] is [extend] with one element. *)
Definition list_extend (name : string) (vs : list pyval) : M state unit :=
  do l <- load name;
  modify (λ s, set_locals (<[name := l ++ vs]> (locals s)) s).

Definition list_append (name : string) (v : pyval) : M state unit :=
  list_extend name [v].

(** [torch.save(obj, path)] and [plt.savefig(path)] *)
Definition save (path : string) (f : file) : M state unit := modify (add_file path f).

(** ** Setup (lines 16 to 42) *)

Definition output_dir : string := "output".
Definition checkpoints_dir : string := "checkpoints".
Definition num_epochs : nat := 13.

(** [scheduler.step()] as StepLR does it: count one more epoch, and
    multiply the learning rate by [gamma] at every [step_size]-th one. *)
Definition StepLR_step (sc : scheduler) (o : optimizer) : scheduler * optimizer :=
  let e := last_epoch sc + 1 in
  ({| step_size := step_size sc; gamma := gamma sc; last_epoch := e |},
   if (e =? 0) || negb (e mod step_size sc =? 0) then o
   else {| lr := (lr o * gamma sc)%Q; adam := adam o |}).

(** The constructor takes the initial step, from epoch -1 to epoch 0. *)
Definition StepLR (o : optimizer) (step : Z) (g : Q) : scheduler * optimizer :=
  StepLR_step {| step_size := step; gamma := g; last_epoch := -1 |} o.

Definition setup (env : Env) : state :=
  let num_classes := length (class_names env) in
  let model := create_model num_classes in
  let optimizer0 := {| lr := 1 # 10000; adam := Adam model |} in
  let '(scheduler, optimizer) := StepLR optimizer0 10 (1 # 10) in
  {| params := model; training := true; optim := optimizer; sched := scheduler;
     scaler := GradScaler;
     locals := <["train_accs" := []]> (<["train_losses" := []]> ∅);
     figure := [];
     dirs := [output_dir; checkpoints_dir];
     files := [];
     stdout := [MsgDevice (cuda_available env); MsgClasses (class_names env)] |}.

(** ** The three passes of an epoch *)

(** Running loss, running corrects, total samples. *)
Definition metrics : Type := double * counter * Z.
Definition metrics0 : metrics := (Fin 0, PyInt 0, 0).

(** The three accumulator updates that end the body of every batch loop
    (lines 62 to 64, 86 to 88, 107 to 109). *)
Definition accumulate (acc : metrics) (loss : double) (preds : list Z) (b : batch) : metrics :=
  let '(running_loss, running_corrects, total_samples) := acc in
  (dadd running_loss (dmul loss (of_int (size0 b))),
   counter_add running_corrects (count_eq preds (labels_of b)),
   total_samples + size0 b).

(** Lines 49 to 64. *)
Definition train_batch (acc : metrics) (b : batch) : M state metrics :=
  do s <- get;
  let outputs := forward (training s) (params s) (inputs_of b) in
  let loss := criterion outputs (labels_of b) in
  let grads := backward (scaler s) (training s) (params s) (inputs_of b) (labels_of b) in
  let stepped := scaler_step (scaler s) (lr (optim s)) (adam (optim s)) (params s) grads in
  do _ <- modify (set_learner stepped.2 stepped.1 (scaler_update (scaler s) grads));
  let preds := map argmax outputs in
  ret (accumulate acc loss preds b).

(** Lines 78 to 88. *)
Definition val_batch (acc : metrics) (b : batch) : M state metrics :=
  do s <- get;
  let outputs := forward (training s) (params s) (inputs_of b) in
  let loss := criterion outputs (labels_of b) in
  let preds := map argmax outputs in
  ret (accumulate acc loss preds b).

(** Lines 99 to 112. *)
Definition test_batch (acc : metrics) (b : batch) : M state metrics :=
  do s <- get;
  let outputs := forward (training s) (params s) (inputs_of b) in
  let loss := criterion outputs (labels_of b) in
  let preds := map argmax outputs in
  let acc' := accumulate acc loss preds b in
  do _ <- list_extend "all_preds" (map PInt preds);
  do _ <- list_extend "all_labels" (map PInt (labels_of b));
  ret acc'.

(** Lines 45 to 64: [model.train()], the accumulators, the batch loop. *)
Definition train_loop (env : Env) (epoch : nat) : M state metrics :=
  do _ <- modify (set_training true);
  for_each train_batch (dataloaders env train epoch) metrics0.

(** Lines 73 to 88. *)
Definition val_loop (env : Env) (epoch : nat) : M state metrics :=
  do _ <- modify (set_training false);
  for_each val_batch (dataloaders env val epoch) metrics0.

(** Lines 94 to 112. *)
Definition test_loop (env : Env) (epoch : nat) : M state metrics :=
  do _ <- assign_empty "all_preds";
  do _ <- assign_empty "all_labels";
  for_each test_batch (dataloaders env test epoch) metrics0.

(** Lines 45 to 71; returns [epoch_loss] and [epoch_acc]. *)
Definition train_pass (env : Env) (epoch : nat) : M state (double * double) :=
  do '(running_loss, running_corrects, total_samples) <- train_loop env epoch;
  do epoch_loss <- lift (py_truediv running_loss total_samples);
  do epoch_acc <- lift (accuracy_percent running_corrects total_samples);
  do _ <- list_append "train_losses" (PFloat epoch_loss);
  do _ <- list_append "train_accs" (PFloat epoch_acc);
  do _ <- print (MsgTrain epoch num_epochs epoch_loss epoch_acc);
  ret (epoch_loss, epoch_acc).

(** Lines 73 to 92; returns [val_epoch_loss] and [val_epoch_acc]. *)
Definition val_pass (env : Env) (epoch : nat) : M state (double * double) :=
  do '(val_running_loss, val_running_corrects, val_total_samples) <-
    val_loop env epoch;
  do val_epoch_loss <- lift (py_truediv val_running_loss val_total_samples);
  do val_epoch_acc <- lift (accuracy_percent val_running_corrects val_total_samples);
  do _ <- print (MsgVal val_epoch_loss val_epoch_acc);
  ret (val_epoch_loss, val_epoch_acc).

(** Lines 94 to 114; returns [test_epoch_acc]. *)
Definition test_pass (env : Env) (epoch : nat) : M state double :=
  do '(test_running_loss, test_running_corrects, test_total_samples) <-
    test_loop env epoch;
  lift (accuracy_percent test_running_corrects test_total_samples).

(** ** The epoch loop (lines 44 to 127) *)

Inductive ctl := Continue | Break.

Definition checkpoint_path (epoch : nat) : string :=
  path_join checkpoints_dir ("checkpoint_epoch_" +:+ pretty epoch +:+ ".pth").

(** Lines 119 to 127. *)
Definition checkpoint_step (epoch : nat) (epoch_loss : double) : M state unit :=
  if (epoch mod 5 =? 0)%nat then
    do s <- get;
    do _ <- save (checkpoint_path epoch)
              (CheckpointFile epoch (params s) (optim s) epoch_loss);
    print (MsgCheckpoint epoch)
  else ret tt.

Definition epoch_body (env : Env) (epoch : nat) : M state ctl :=
  do tr <- train_pass env epoch;
  do _ <- val_pass env epoch;
  do test_epoch_acc <- test_pass env epoch;
  if dge test_epoch_acc (Fin 80) then
    do _ <- print (MsgEarlyStop epoch);
    ret Break
  else
    do _ <- checkpoint_step epoch tr.1;
    ret Continue.

(** [for epoch in epochs: ...], left by [break] or by exhaustion. *)
Fixpoint epoch_loop (env : Env) (epochs : list nat) : M state ctl :=
  match epochs with
  | [] => ret Continue
  | epoch :: rest =>
      do c <- epoch_body env epoch;
      match c with
      | Break => ret Break
      | Continue => epoch_loop env rest
      end
  end.

(** ** After the loop (lines 129 to 158) *)

Definition final_model_path : string := path_join checkpoints_dir "final_model.pth".
Definition loss_plot_path : string := path_join output_dir "loss_vs_epochs.png".
Definition accuracy_plot_path : string := path_join output_dir "accuracy_vs_epochs.png".
Definition confusion_plot_path : string := path_join output_dir "confusion_matrix.png".

(** Lines 129 to 131. *)
Definition save_final_model : M state unit :=
  do s <- get;
  do _ <- save final_model_path (StateDictFile (params s));
  print (MsgFinal final_model_path).

Definition plt_figure : M state unit := modify (set_figure []).
Definition plt_plot (ys : list pyval) (label : string) : M state unit :=
  modify (λ s, set_figure (figure s ++ [(ys, label)]) s).
Definition plt_savefig (path : string) : M state unit :=
  do s <- get;
  save path (FigureFile (figure s)).

(** Lines 133 to 141. *)
Definition plot_losses : M state unit :=
  do _ <- plt_figure;
  do train_losses <- load "train_losses";
  do _ <- plt_plot train_losses "train loss";
  do val_losses <- load "val_losses";
  do _ <- plt_plot val_losses "val loss";
  plt_savefig loss_plot_path.

(** Lines 143 to 151. *)
Definition plot_accuracies : M state unit :=
  do _ <- plt_figure;
  do train_accs <- load "train_accs";
  do _ <- plt_plot train_accs "train acc";
  do val_accs <- load "val_accs";
  do _ <- plt_plot val_accs "val acc";
  plt_savefig accuracy_plot_path.

(** Lines 153 to 158. *)
Definition plot_confusion (env : Env) : M state unit :=
  do all_labels <- load "all_labels";
  do all_preds <- load "all_preds";
  do _ <- plt_figure;
  save confusion_plot_path (ConfusionFile all_labels all_preds (class_names env)).

Definition finalize (env : Env) : M state unit :=
  do _ <- save_final_model;
  do _ <- plot_losses;
  do _ <- plot_accuracies;
  plot_confusion env.

(** The statements of [train_model] after setup. *)
Definition run (env : Env) : M state unit :=
  do _ <- epoch_loop env (seq 1 num_epochs);
  finalize env.

Definition train_model (env : Env) : res unit * state := run env (setup env).

(** ** Vocabulary of the properties *)

(** Number of samples a loader yields in one iteration. *)
Definition samples (bs : list batch) : Z :=
  fold_right (λ b n, size0 b + n) 0 bs.

(** Predictions the model of state [s] makes on the batches, in order,
    and the true labels of those batches. *)
Definition predictions (s : state) (bs : list batch) : list Z :=
  concat (map (λ b, map argmax (forward (training s) (params s) (inputs_of b))) bs).
Definition true_labels (bs : list batch) : list Z :=
  concat (map labels_of bs).

(** What a batch loop over [bs] has done to the accumulators: it has
    counted the samples, added at most one correct prediction per sample,
    and left the count of corrects a tensor if it ran at all. *)
Definition is_tensor (c : counter) : Prop := c = Tensor (counter_val c).

Definition counts_after (acc acc' : metrics) (bs : list batch) : Prop :=
  acc'.2 = acc.2 + samples bs ∧
  counter_val acc.1.2 ≤ counter_val acc'.1.2 ≤ counter_val acc.1.2 + samples bs ∧
  (bs ≠ [] ∨ is_tensor acc.1.2 → is_tensor acc'.1.2).

(** Both history lists of line 42 are bound. *)
Definition histories_bound (s : state) : Prop :=
  is_Some (locals s !! "train_losses") ∧ is_Some (locals s !! "train_accs").

(** A monadic step leaves [s ~> s'] within a relation on states. *)
Definition preserves {A} (R : state → state → Prop) (m : M state A) : Prop :=
  ∀ s, R s (m s).2.

(** The relation "projection [f] has not changed". *)
Definition keeps {X} (f : state → X) : state → state → Prop :=
  λ s s', f s' = f s.

(** The relation "files were only added, each of them a [P]". *)
Definition appends (P : string * file → Prop) : state → state → Prop :=
  λ s s', ∃ added, files s' = files s ++ added ∧ Forall P added.

(** Paths of the model files: a checkpoint of some epoch, or the final
    model. *)
Definition model_path (pf : string * file) : Prop :=
  (∃ epoch, pf.1 = checkpoint_path epoch) ∨ pf.1 = final_model_path.


(** Both history lists are bound and hold [n] entries each. *)
Definition histories_of_length (n : nat) (s : state) : Prop :=
  ∃ l a, locals s !! "train_losses" = Some l ∧ locals s !! "train_accs" = Some a ∧
         length l = n ∧ length a = n.

(** The relation "a local name that was bound is still bound". *)
Definition stays_bound (name : string) : state → state → Prop :=
  λ s s', is_Some (locals s !! name) → is_Some (locals s' !! name).

End TrainModel.

(** [corrects / total_samples * 100] on finite values. *)
Definition percent (corrects total : Z) : Q :=
  (inject_Z corrects / inject_Z total * inject_Z 100)%Q.

(** ** A small concrete backend and a few data sets

    Inputs and logits are integers; the model is an offset added to every
    input, the predicted class is the logit itself, and every optimiser
    step moves the offset up by one. *)

#[local] Instance toy : Backend := {|
  Input := Z;
  Logits := Z;
  Params := Z;
  Grads := unit;
  AdamState := nat;
  ScalerState := unit;
  forward := λ _ p xs, map (Z.add p) xs;
  forward_length := λ _ p xs, length_map (Z.add p) xs;
  argmax := λ z, z;
  criterion := λ _ _, Fin 1;
  backward := λ _ _ _ _ _, tt;
  scaler_step := λ _ _ a p _, (S a, p + 1);
  scaler_update := λ _ _, tt;
  create_model := λ _, 0;
  Adam := λ _, 0%nat;
  GradScaler := tt;
|}.

(** Loaders that yield the same batches in every epoch. *)
Definition toy_env (tr va te : list (list (Z * Z))) : Env :=
  {| cuda_available := false;
     dataloaders := λ sp _, match sp with train => tr | val => va | test => te end;
     class_names := ["AD"; "NC"] |}.

(** One training batch per epoch, so the offset is the epoch number when
    the test pass runs; the test labels are never met. *)
Definition env_full : Env := toy_env [[(0, 0); (1, 1)]] [[(0, 0)]] [[(0, -1); (0, -2)]].
(** The only test sample is classified correctly in epoch 5. *)
Definition env_stop5 : Env := toy_env [[(0, 0); (1, 1)]] [[(0, 0)]] [[(0, 5)]].
(** The test sample is classified correctly in epoch 2. *)
Definition env_stop2 : Env := toy_env [[(0, 0); (1, 1)]] [[(0, 0)]] [[(0, 2)]].
(** Empty train, validation or test sets. *)
Definition env_no_train : Env := toy_env [] [[(0, 0)]] [[(0, 5)]].
Definition env_no_val : Env := toy_env [[(0, 0)]] [] [[(0, 5)]].
Definition env_no_test : Env := toy_env [[(0, 0)]] [[(0, 0)]] [].
(** A test loader that yields one batch without samples. *)
Definition env_empty_test_batch : Env := toy_env [[(0, 0)]] [[(0, 0)]] [[]].

(** The same backend with a criterion that always returns [nan]. *)
Definition toy_nan : Backend := {|
  Input := Z;
  Logits := Z;
  Params := Z;
  Grads := unit;
  AdamState := nat;
  ScalerState := unit;
  forward := λ _ p xs, map (Z.add p) xs;
  forward_length := λ _ p xs, length_map (Z.add p) xs;
  argmax := λ z, z;
  criterion := λ _ _, NaN;
  backward := λ _ _ _ _ _, tt;
  scaler_step := λ _ _ a p _, (S a, p + 1);
  scaler_update := λ _ _, tt;
  create_model := λ _, 0;
  Adam := λ _, 0%nat;
  GradScaler := tt;
|}.

Definition env_nan : @Env toy_nan :=
  @Build_Env toy_nan false
    (λ sp _,
       match sp with
       | train => [[(0, 0); (1, 1)]]
       | val => [[(0, 0)]]
       | test => [[(0, -1)]]
       end)
    ["AD"; "NC"].

(** * Properties *)

(** ** Arithmetic of the reductions *)

Lemma inject_Z_compare_0 (n : Z) : (inject_Z n ?= 0)%Q = (n ?= 0).
Proof. unfold Qcompare, inject_Z. simpl. now rewrite Z.mul_1_r. Qed.

Lemma py_truediv_nonzero (x : double) (n : Z) :
  n ≠ 0 → py_truediv x n = Ok (ddiv x (of_int n)).
Proof. intros Hn. unfold py_truediv. now destruct (Z.eqb_spec n 0). Qed.

Lemma accuracy_percent_tensor (c n : Z) :
  0 < n → accuracy_percent (Tensor c) n = Ok (Fin (percent c n)).
Proof.
  intros Hn. unfold accuracy_percent, percent, of_int, ddiv, dmul. simpl.
  rewrite inject_Z_compare_0.
  destruct (Z.compare_spec n 0); try lia; reflexivity.
Qed.

Lemma percent_bounds (c n : Z) :
  0 ≤ c ≤ n → 0 < n → (0 <= percent c n)%Q ∧ (percent c n <= 100)%Q.
Proof.
  intros [Hc Hcn] Hn. unfold percent.
  assert (Hpos : (0 < inject_Z n)%Q) by (rewrite Zlt_Qlt in Hn; exact Hn).
  assert (H0 : (0 <= inject_Z c / inject_Z n)%Q).
  { apply Qle_shift_div_l; [exact Hpos|]. rewrite Qmult_0_l.
    rewrite Zle_Qle in Hc. exact Hc. }
  assert (H1 : (inject_Z c / inject_Z n <= 1)%Q).
  { apply Qle_shift_div_r; [exact Hpos|]. rewrite Qmult_1_l.
    rewrite Zle_Qle in Hcn. exact Hcn. }
  split.
  - apply Qmult_le_0_compat; [exact H0|]. discriminate.
  - apply Qle_trans with (1 * inject_Z 100)%Q.
    + apply Qmult_le_compat_r; [exact H1|]. discriminate.
    + discriminate.
Qed.

Lemma dge_fin (q r : Q) : dge (Fin q) (Fin r) = true ↔ (r <= q)%Q.
Proof. simpl. apply Qle_bool_iff. Qed.

Lemma count_eq_bounds (preds labels : list Z) :
  0 ≤ count_eq preds labels ≤ Z.of_nat (length preds).
Proof.
  unfold count_eq. split; [lia|].
  apply inj_le.
  etransitivity; [apply length_filter|].
  rewrite length_zip. lia.
Qed.

(** ** Laws of the monad *)

Section Monad.
Context {St : Type}.

Lemma bind_ok {A C} (m : M St A) (k : A → M St C) s a s' :
  m s = (Ok a, s') → bind m k s = k a s'.
Proof. intros H. unfold bind. now rewrite H. Qed.

Lemma bind_err {A C} (m : M St A) (k : A → M St C) s e s' :
  m s = (Err e, s') → bind m k s = (Err e, s').
Proof. intros H. unfold bind. now rewrite H. Qed.

End Monad.

Section Properties.
Context {B : Backend}.
Implicit Types (s : state) (env : Env) (epoch : nat) (name : string).

(** ** Frame rules *)

#[local] Instance keeps_preorder {X} (f : state → X) : PreOrder (keeps f).
Proof.
  split.
  - intros s. reflexivity.
  - intros s1 s2 s3 H12 H23. unfold keeps in *. congruence.
Qed.

#[local] Instance stays_bound_preorder name : PreOrder (stays_bound name).
Proof.
  split.
  - intros s H. exact H.
  - intros s1 s2 s3 H12 H23 H. apply H23, H12, H.
Qed.

Section Frames.
Context (R : state → state → Prop) `{!PreOrder R}.

Lemma preserves_ret {A} (a : A) : preserves R (ret a).
Proof. intros s. reflexivity. Qed.

Lemma preserves_lift {A} (r : res A) : preserves R (lift r).
Proof. intros s. reflexivity. Qed.

Lemma preserves_get : preserves R get.
Proof. intros s. reflexivity. Qed.

Lemma preserves_modify (f : state → state) :
  (∀ s, R s (f s)) → preserves R (modify f).
Proof. intros H s. apply H. Qed.

Lemma preserves_bind {A C} (m : M state A) (k : A → M state C) :
  preserves R m → (∀ a, preserves R (k a)) → preserves R (bind m k).
Proof.
  intros Hm Hk s. specialize (Hm s). unfold bind.
  destruct (m s) as [[a|e] s1]; simpl in *.
  - transitivity s1; [exact Hm | apply Hk].
  - exact Hm.
Qed.

Lemma preserves_for_each {A Acc} (body : Acc → A → M state Acc) xs acc :
  (∀ acc x, preserves R (body acc x)) → preserves R (for_each body xs acc).
Proof.
  intros Hbody. revert acc. induction xs as [|x xs IH]; intros acc; simpl.
  - apply preserves_ret.
  - apply preserves_bind; [apply Hbody | exact IH].
Qed.

End Frames.

Create HintDb script.
#[local] Hint Unfold train_loop val_loop test_loop train_pass val_pass test_pass
  train_batch val_batch test_batch checkpoint_step epoch_body
  save_final_model plot_losses plot_accuracies plot_confusion finalize run
  print load assign_empty list_extend list_append save raise
  plt_figure plt_plot plt_savefig : script.

(** Walks through a piece of the script and leaves one goal for every
    state update it performs. *)
Ltac frame_step :=
  lazymatch goal with
  | |- PreOrder _ => exact _
  | |- preserves _ (ret _) => apply preserves_ret
  | |- preserves _ (lift _) => apply preserves_lift
  | |- preserves _ get => apply preserves_get
  | |- preserves _ (modify _) => apply preserves_modify
  | |- preserves _ (bind _ _) => apply preserves_bind
  | |- preserves _ (for_each _ _ _) => apply preserves_for_each
  | |- preserves _ (match ?x with _ => _ end) => destruct x
  | |- ∀ x, @?P x => intro; cbv beta
  end.

Ltac frame := autounfold with script; repeat frame_step.

Lemma epoch_loop_preserves R `{!PreOrder R} env epochs :
  (∀ epoch, preserves R (epoch_body env epoch)) →
  preserves R (epoch_loop env epochs).
Proof.
  intros Hbody. induction epochs as [|epoch rest IH]; simpl.
  - now apply preserves_ret.
  - apply preserves_bind; [exact _ | apply Hbody |].
    intros [|]; [exact IH | now apply preserves_ret].
Qed.

(** No pass of an epoch writes a file. *)
Lemma train_pass_files env epoch : preserves (keeps files) (train_pass env epoch).
Proof. frame; reflexivity. Qed.

Lemma val_pass_files env epoch : preserves (keeps files) (val_pass env epoch).
Proof. frame; reflexivity. Qed.

Lemma test_pass_files env epoch : preserves (keeps files) (test_pass env epoch).
Proof. frame; reflexivity. Qed.

(** Nothing in the run touches the learning rate or the scheduler. *)
Lemma epoch_body_lr env epoch :
  preserves (keeps (λ s, lr (optim s))) (epoch_body env epoch).
Proof. frame; reflexivity. Qed.

Lemma epoch_body_sched env epoch : preserves (keeps sched) (epoch_body env epoch).
Proof. frame; reflexivity. Qed.

(** ** The batch loops *)


Lemma counts_after_nil (acc : metrics) : counts_after acc acc [].
Proof.
  unfold counts_after. simpl. repeat split; try lia.
  intros [H|H]; [congruence | exact H].
Qed.

Lemma counts_after_step (acc : metrics) loss preds (b : batch) acc' bs :
  length preds = length b →
  counts_after (accumulate acc loss preds b) acc' bs →
  counts_after acc acc' (b :: bs).
Proof.
  intros Hlen (Htot & Hcor & Hten).
  destruct acc as [[running_loss running_corrects] total_samples].
  pose proof (count_eq_bounds preds (labels_of b)) as Hb.
  assert (Hsz : size0 b = Z.of_nat (length preds)).
  { unfold size0, inputs_of. rewrite length_map. now rewrite Hlen. }
  unfold counts_after in *. simpl in *.
  repeat split; try lia.
  intros _. apply Hten. right. reflexivity.
Qed.

Lemma forward_preds_length mode p (b : batch) :
  length (map argmax (forward mode p (inputs_of b))) = length b.
Proof. unfold inputs_of. now rewrite !length_map, forward_length, length_map. Qed.

Lemma train_batches_spec (bs : list batch) acc s :
  ∃ acc' s', for_each train_batch bs acc s = (Ok acc', s') ∧ counts_after acc acc' bs.
Proof.
  revert acc s. induction bs as [|b bs IH]; intros acc s; simpl.
  - exists acc, s. split; [reflexivity | apply counts_after_nil].
  - unfold bind at 1. unfold train_batch at 1. unfold bind, get, modify, ret.
    match goal with |- context [for_each train_batch bs ?a ?t] =>
      destruct (IH a t) as (acc' & s' & Hrun & Hcount) end.
    exists acc', s'. split; [exact Hrun|].
    eapply counts_after_step; [|exact Hcount]. apply forward_preds_length.
Qed.

Lemma val_batches_spec (bs : list batch) acc s :
  ∃ acc', for_each val_batch bs acc s = (Ok acc', s) ∧ counts_after acc acc' bs.
Proof.
  revert acc. induction bs as [|b bs IH]; intros acc; simpl.
  - exists acc. split; [reflexivity | apply counts_after_nil].
  - unfold bind at 1. unfold val_batch at 1. unfold bind, get, ret.
    match goal with |- context [for_each val_batch bs ?a s] =>
      destruct (IH a) as (acc' & Hrun & Hcount) end.
    exists acc'. split; [exact Hrun|].
    eapply counts_after_step; [|exact Hcount]. apply forward_preds_length.
Qed.

Lemma list_extend_bound name vs l s :
  locals s !! name = Some l →
  list_extend name vs s = (Ok tt, set_locals (<[name := l ++ vs]> (locals s)) s).
Proof.
  intros H. unfold list_extend, load, bind, get, modify. now rewrite H.
Qed.

Lemma predictions_ext s1 s2 (bs : list batch) :
  params s1 = params s2 → training s1 = training s2 →
  predictions s1 bs = predictions s2 bs.
Proof. intros Hp Ht. unfold predictions. now rewrite Hp, Ht. Qed.

Lemma test_batches_spec (bs : list batch) acc s lp ll :
  locals s !! "all_preds" = Some lp →
  locals s !! "all_labels" = Some ll →
  ∃ acc' s', for_each test_batch bs acc s = (Ok acc', s') ∧
    counts_after acc acc' bs ∧
    locals s' !! "all_preds" = Some (lp ++ map PInt (predictions s bs)) ∧
    locals s' !! "all_labels" = Some (ll ++ map PInt (true_labels bs)) ∧
    params s' = params s ∧ training s' = training s.
Proof.
  revert acc s lp ll. induction bs as [|b bs IH]; intros acc s lp ll Hp Hl; simpl.
  - exists acc, s. rewrite !app_nil_r. split_and!; try done.
    apply counts_after_nil.
  - set (preds := map argmax (forward (training s) (params s) (inputs_of b))).
    set (s1 := set_locals (<["all_preds" := lp ++ map PInt preds]> (locals s)) s).
    set (s2 := set_locals (<["all_labels" := ll ++ map PInt (labels_of b)]> (locals s1)) s1).
    assert (Hbody : test_batch acc b s =
      (Ok (accumulate acc (criterion (forward (training s) (params s) (inputs_of b))
                             (labels_of b)) preds b), s2)).
    { unfold test_batch. unfold bind at 1. unfold get.
      erewrite bind_ok by (apply list_extend_bound; exact Hp).
      erewrite bind_ok; [reflexivity|].
      apply list_extend_bound. simpl. now rewrite lookup_insert_ne. }
    rewrite (bind_ok _ _ _ _ _ Hbody).
    destruct (IH (accumulate acc (criterion (forward (training s) (params s) (inputs_of b))
                             (labels_of b)) preds b) s2
                 (lp ++ map PInt preds) (ll ++ map PInt (labels_of b)))
      as (acc' & s' & Hrun & Hcount & Hp' & Hl' & Hpar & Htr).
    { simpl. rewrite lookup_insert_ne by done. now rewrite lookup_insert_eq. }
    { simpl. now rewrite lookup_insert_eq. }
    exists acc', s'. split; [exact Hrun|]. split.
    { eapply counts_after_step; [|exact Hcount]. apply forward_preds_length. }
    rewrite (predictions_ext s2 s) in Hp' by reflexivity.
    unfold predictions, true_labels in *. simpl.
    rewrite !map_app, !app_assoc. fold preds.
    split_and!; assumption.
Qed.

Lemma test_loop_spec env epoch s :
  ∃ acc' s', test_loop env epoch s = (Ok acc', s') ∧
    counts_after metrics0 acc' (dataloaders env test epoch) ∧
    locals s' !! "all_preds" = Some (map PInt (predictions s (dataloaders env test epoch))) ∧
    locals s' !! "all_labels" = Some (map PInt (true_labels (dataloaders env test epoch))) ∧
    params s' = params s ∧ training s' = training s.
Proof.
  unfold test_loop, assign_empty, bind, modify.
  match goal with |- context [for_each test_batch _ _ ?t] => set (s0 := t) end.
  destruct (test_batches_spec (dataloaders env test epoch) metrics0 s0 [] [])
    as (acc' & s' & Hrun & Hcount & Hp & Hl & Hpar & Htr).
  { subst s0. simpl. rewrite lookup_insert_ne by done. now rewrite lookup_insert_eq. }
  { subst s0. simpl. now rewrite lookup_insert_eq. }
  exists acc', s'. rewrite (predictions_ext s0 s) in Hp by reflexivity.
  split_and!; assumption.
Qed.

Lemma train_loop_spec env epoch s :
  ∃ acc' s', train_loop env epoch s = (Ok acc', s') ∧
    counts_after metrics0 acc' (dataloaders env train epoch).
Proof.
  unfold train_loop, bind, modify.
  apply train_batches_spec.
Qed.

Lemma val_loop_spec env epoch s :
  ∃ acc', val_loop env epoch s = (Ok acc', set_training false s) ∧
    counts_after metrics0 acc' (dataloaders env val epoch).
Proof.
  unfold val_loop, bind, modify.
  apply val_batches_spec.
Qed.

(** The counters a loop leaves when it has seen at least one sample. *)
Lemma counts_positive (acc' : metrics) (bs : list batch) :
  counts_after metrics0 acc' bs → 0 < samples bs →
  ∃ running_loss c,
    acc' = (running_loss, Tensor c, samples bs) ∧ 0 ≤ c ≤ samples bs.
Proof.
  intros (Htot & Hcor & Hten) Hpos.
  destruct acc' as [[running_loss running_corrects] total_samples]. simpl in *.
  assert (Hne : bs ≠ []) by (intros ->; simpl in Hpos; lia).
  exists running_loss, (counter_val running_corrects).
  rewrite <- Hten by (left; exact Hne). split; [f_equal; lia | lia].
Qed.

(** The counters a loop leaves when it has seen batches but no sample. *)
Lemma counts_zero (acc' : metrics) (bs : list batch) :
  counts_after metrics0 acc' bs → bs ≠ [] → samples bs = 0 →
  ∃ running_loss, acc' = (running_loss, Tensor 0, 0).
Proof.
  intros (Htot & Hcor & Hten) Hne Hzero.
  destruct acc' as [[running_loss running_corrects] total_samples]. simpl in *.
  exists running_loss. rewrite Hten by (left; exact Hne).
  repeat f_equal; lia.
Qed.

Lemma bind_lift_ok {A C} (r : res A) (k : A → M state C) a s :
  r = Ok a → bind (lift r) k s = k a s.
Proof. now intros ->. Qed.

Lemma bind_lift_err {A C} (r : res A) (k : A → M state C) e s :
  r = Err e → bind (lift r) k s = (Err e, s).
Proof. now intros ->. Qed.

(** ** The three theorems on counting *)

(** C7: in every epoch, the accumulator [total_samples] after the train
    loop is the sum of the sizes of the batches the train loader yielded
    in that epoch; likewise [val_total_samples] after the validation loop
    and [test_total_samples] after the test loop. *)
Theorem total_samples_is_sum_of_batch_sizes env epoch s :
  (∃ running_loss running_corrects s',
     train_loop env epoch s =
       (Ok (running_loss, running_corrects, samples (dataloaders env train epoch)), s')) ∧
  (∃ val_running_loss val_running_corrects s',
     val_loop env epoch s =
       (Ok (val_running_loss, val_running_corrects, samples (dataloaders env val epoch)), s')) ∧
  (∃ test_running_loss test_running_corrects s',
     test_loop env epoch s =
       (Ok (test_running_loss, test_running_corrects, samples (dataloaders env test epoch)), s')).
Proof.
  split_and!.
  - destruct (train_loop_spec env epoch s) as ([[l c] t] & s' & Hrun & Htot & _).
    simpl in Htot. subst t. eauto.
  - destruct (val_loop_spec env epoch s) as ([[l c] t] & Hrun & Htot & _).
    simpl in Htot. subst t. eauto.
  - destruct (test_loop_spec env epoch s) as ([[l c] t] & s' & Hrun & (Htot & _) & _).
    simpl in Htot. subst t. eauto.
Qed.

(** ** The passes *)

Lemma train_loop_locals env epoch : preserves (keeps locals) (train_loop env epoch).
Proof. frame; reflexivity. Qed.

Lemma train_pass_ok env epoch s :
  histories_bound s → 0 < samples (dataloaders env train epoch) →
  ∃ running_loss c s1 s',
    train_loop env epoch s =
      (Ok (running_loss, Tensor c, samples (dataloaders env train epoch)), s1) ∧
    0 ≤ c ≤ samples (dataloaders env train epoch) ∧
    train_pass env epoch s =
      (Ok (ddiv running_loss (of_int (samples (dataloaders env train epoch))),
           Fin (percent c (samples (dataloaders env train epoch)))), s') ∧
    params s' = params s1 ∧ optim s' = optim s1.
Proof.
  intros [[tl Htl] [ta Hta]] Hpos.
  destruct (train_loop_spec env epoch s) as (acc' & s1 & Hloop & Hcount).
  destruct (counts_positive _ _ Hcount Hpos) as (rl & c & -> & Hc).
  pose proof (train_loop_locals env epoch s) as Hloc.
  rewrite Hloop in Hloc. unfold keeps in Hloc. simpl in Hloc.
  exists rl, c, s1. eexists. split; [exact Hloop|]. split; [exact Hc|].
  unfold train_pass. rewrite (bind_ok _ _ _ _ _ Hloop).
  rewrite (bind_lift_ok _ _ _ _ (py_truediv_nonzero rl _ (Z.neq_sym _ _ (Z.lt_neq _ _ Hpos)))).
  rewrite (bind_lift_ok _ _ _ _ (accuracy_percent_tensor _ _ Hpos)).
  unfold list_append.
  erewrite bind_ok by (apply list_extend_bound; rewrite Hloc; exact Htl).
  erewrite bind_ok
    by (apply list_extend_bound; simpl; rewrite lookup_insert_ne by done;
        rewrite Hloc; exact Hta).
  unfold print, bind, modify, ret. simpl. split_and!; reflexivity.
Qed.

Lemma train_pass_zero env epoch s :
  samples (dataloaders env train epoch) = 0 →
  ∃ s', train_pass env epoch s = (Err ZeroDivisionError, s').
Proof.
  intros Hzero.
  destruct (train_loop_spec env epoch s) as ([[rl c] t] & s1 & Hloop & Htot & _).
  simpl in Htot. rewrite Hzero in Htot. subst t.
  exists s1. unfold train_pass. rewrite (bind_ok _ _ _ _ _ Hloop).
  apply bind_lift_err. reflexivity.
Qed.

Lemma val_pass_ok env epoch s :
  0 < samples (dataloaders env val epoch) →
  ∃ val_running_loss c s1 s',
    val_loop env epoch s =
      (Ok (val_running_loss, Tensor c, samples (dataloaders env val epoch)), s1) ∧
    0 ≤ c ≤ samples (dataloaders env val epoch) ∧
    val_pass env epoch s =
      (Ok (ddiv val_running_loss (of_int (samples (dataloaders env val epoch))),
           Fin (percent c (samples (dataloaders env val epoch)))), s').
Proof.
  intros Hpos.
  destruct (val_loop_spec env epoch s) as (acc' & Hloop & Hcount).
  destruct (counts_positive _ _ Hcount Hpos) as (rl & c & -> & Hc).
  exists rl, c. do 2 eexists. split; [exact Hloop|]. split; [exact Hc|].
  unfold val_pass. rewrite (bind_ok _ _ _ _ _ Hloop).
  rewrite (bind_lift_ok _ _ _ _ (py_truediv_nonzero rl _ (Z.neq_sym _ _ (Z.lt_neq _ _ Hpos)))).
  rewrite (bind_lift_ok _ _ _ _ (accuracy_percent_tensor _ _ Hpos)).
  reflexivity.
Qed.

Lemma val_pass_zero env epoch s :
  samples (dataloaders env val epoch) = 0 →
  ∃ s', val_pass env epoch s = (Err ZeroDivisionError, s').
Proof.
  intros Hzero.
  destruct (val_loop_spec env epoch s) as ([[rl c] t] & Hloop & Htot & _).
  simpl in Htot. rewrite Hzero in Htot. subst t.
  eexists. unfold val_pass. rewrite (bind_ok _ _ _ _ _ Hloop).
  apply bind_lift_err. reflexivity.
Qed.

Lemma test_pass_ok env epoch s :
  0 < samples (dataloaders env test epoch) →
  ∃ test_running_loss c s',
    test_loop env epoch s =
      (Ok (test_running_loss, Tensor c, samples (dataloaders env test epoch)), s') ∧
    0 ≤ c ≤ samples (dataloaders env test epoch) ∧
    test_pass env epoch s =
      (Ok (Fin (percent c (samples (dataloaders env test epoch)))), s').
Proof.
  intros Hpos.
  destruct (test_loop_spec env epoch s) as (acc' & s' & Hloop & Hcount & _).
  destruct (counts_positive _ _ Hcount Hpos) as (rl & c & -> & Hc).
  exists rl, c, s'. split; [exact Hloop|]. split; [exact Hc|].
  unfold test_pass. rewrite (bind_ok _ _ _ _ _ Hloop).
  unfold lift. now rewrite accuracy_percent_tensor.
Qed.

(** A test loader that yields no batch leaves [test_running_corrects]
    the Python integer 0, which has no method [double]. *)
Lemma test_pass_no_batch env epoch s :
  dataloaders env test epoch = [] →
  ∃ s', test_pass env epoch s = (Err (AttributeError "double"), s').
Proof.
  intros Hnil. eexists.
  unfold test_pass, test_loop, assign_empty, bind, modify, lift.
  rewrite Hnil. reflexivity.
Qed.

(** A test loader that yields batches without samples gives the
    accuracy [nan]. *)
Lemma test_pass_empty_batches env epoch s :
  dataloaders env test epoch ≠ [] →
  samples (dataloaders env test epoch) = 0 →
  ∃ s', test_pass env epoch s = (Ok NaN, s').
Proof.
  intros Hne Hzero.
  destruct (test_loop_spec env epoch s) as (acc' & s' & Hloop & Hcount & _).
  destruct (counts_zero _ _ Hcount Hne Hzero) as (rl & ->).
  exists s'. unfold test_pass. now rewrite (bind_ok _ _ _ _ _ Hloop).
Qed.

(** C6: in every pass (train, validation, test) of every epoch that sees
    at least one sample, the accuracy the pass computes is
    [corrects / total_samples * 100] for the counted corrects and the
    counted samples, and it lies between 0 and 100. *)
Theorem accuracy_percentage_bounded env epoch s :
  (histories_bound s → 0 < samples (dataloaders env train epoch) →
   ∃ running_loss running_corrects s1 epoch_loss epoch_acc s',
     train_loop env epoch s =
       (Ok (running_loss, Tensor running_corrects,
            samples (dataloaders env train epoch)), s1) ∧
     train_pass env epoch s = (Ok (epoch_loss, Fin epoch_acc), s') ∧
     epoch_acc = percent running_corrects (samples (dataloaders env train epoch)) ∧
     (0 <= epoch_acc)%Q ∧ (epoch_acc <= 100)%Q) ∧
  (0 < samples (dataloaders env val epoch) →
   ∃ val_running_loss val_running_corrects s1 val_epoch_loss val_epoch_acc s',
     val_loop env epoch s =
       (Ok (val_running_loss, Tensor val_running_corrects,
            samples (dataloaders env val epoch)), s1) ∧
     val_pass env epoch s = (Ok (val_epoch_loss, Fin val_epoch_acc), s') ∧
     val_epoch_acc = percent val_running_corrects (samples (dataloaders env val epoch)) ∧
     (0 <= val_epoch_acc)%Q ∧ (val_epoch_acc <= 100)%Q) ∧
  (0 < samples (dataloaders env test epoch) →
   ∃ test_running_loss test_running_corrects test_epoch_acc s',
     test_loop env epoch s =
       (Ok (test_running_loss, Tensor test_running_corrects,
            samples (dataloaders env test epoch)), s') ∧
     test_pass env epoch s = (Ok (Fin test_epoch_acc), s') ∧
     test_epoch_acc = percent test_running_corrects (samples (dataloaders env test epoch)) ∧
     (0 <= test_epoch_acc)%Q ∧ (test_epoch_acc <= 100)%Q).
Proof.
  split_and!.
  - intros Hb Hpos.
    destruct (train_pass_ok env epoch s Hb Hpos) as (rl & c & s1 & s' & Hl & Hc & Hp & _).
    destruct (percent_bounds _ _ Hc Hpos) as [H0 H100].
    exists rl, c, s1. do 2 eexists. exists s'. split_and!; eauto.
  - intros Hpos.
    destruct (val_pass_ok env epoch s Hpos) as (rl & c & s1 & s' & Hl & Hc & Hp).
    destruct (percent_bounds _ _ Hc Hpos) as [H0 H100].
    exists rl, c, s1. do 2 eexists. exists s'. split_and!; eauto.
  - intros Hpos.
    destruct (test_pass_ok env epoch s Hpos) as (rl & c & s' & Hl & Hc & Hp).
    destruct (percent_bounds _ _ Hc Hpos) as [H0 H100].
    exists rl, c. eexists. exists s'. split_and!; eauto.
Qed.

(** ** One epoch *)

Lemma val_pass_params env epoch : preserves (keeps params) (val_pass env epoch).
Proof. frame; reflexivity. Qed.

Lemma val_pass_optim env epoch : preserves (keeps optim) (val_pass env epoch).
Proof. frame; reflexivity. Qed.

Lemma test_pass_params env epoch : preserves (keeps params) (test_pass env epoch).
Proof. frame; reflexivity. Qed.

Lemma test_pass_optim env epoch : preserves (keeps optim) (test_pass env epoch).
Proof. frame; reflexivity. Qed.

Lemma checkpoint_step_spec epoch epoch_loss s :
  checkpoint_step epoch epoch_loss s =
    (Ok tt,
     if (epoch mod 5 =? 0)%nat
     then add_message (MsgCheckpoint epoch)
            (add_file (checkpoint_path epoch)
               (CheckpointFile epoch (params s) (optim s) epoch_loss) s)
     else s).
Proof. unfold checkpoint_step. now destruct (epoch mod 5 =? 0)%nat. Qed.

(** The epoch body once its three passes have returned. *)
Lemma epoch_body_after_passes env epoch s tr vl acc s1 s2 s3 :
  train_pass env epoch s = (Ok tr, s1) →
  val_pass env epoch s1 = (Ok vl, s2) →
  test_pass env epoch s2 = (Ok acc, s3) →
  epoch_body env epoch s =
    if dge acc (Fin 80)
    then (Ok Break, add_message (MsgEarlyStop epoch) s3)
    else (Ok Continue, (checkpoint_step epoch tr.1 s3).2).
Proof.
  intros Htr Hvl Hte. unfold epoch_body.
  rewrite (bind_ok _ _ _ _ _ Htr), (bind_ok _ _ _ _ _ Hvl), (bind_ok _ _ _ _ _ Hte).
  destruct (dge acc (Fin 80)); [reflexivity|].
  unfold bind. now rewrite checkpoint_step_spec.
Qed.

(** State components the passes hand over unchanged. *)
Lemma passes_frame env epoch s tr vl acc s1 s2 s3 :
  train_pass env epoch s = (Ok tr, s1) →
  val_pass env epoch s1 = (Ok vl, s2) →
  test_pass env epoch s2 = (Ok acc, s3) →
  files s3 = files s ∧ params s3 = params s1 ∧ optim s3 = optim s1.
Proof.
  intros Htr Hvl Hte.
  pose proof (train_pass_files env epoch s) as F1.
  pose proof (val_pass_files env epoch s1) as F2.
  pose proof (test_pass_files env epoch s2) as F3.
  pose proof (val_pass_params env epoch s1) as P2.
  pose proof (test_pass_params env epoch s2) as P3.
  pose proof (val_pass_optim env epoch s1) as O2.
  pose proof (test_pass_optim env epoch s2) as O3.
  rewrite ?Htr, ?Hvl, ?Hte in *. unfold keeps in *. simpl in *.
  split_and!; congruence.
Qed.

(** C1: the early stop triggers exactly when the test accuracy of the
    epoch is at least 80.0.  When it triggers, the loop ends at once: the
    later epochs do not run and no checkpoint is written for this epoch.
    Otherwise the loop goes on with the next epoch of its range. *)
Theorem early_stop_exactly_at_80 env epoch s tr vl test_epoch_acc s1 s2 s3 :
  train_pass env epoch s = (Ok tr, s1) →
  val_pass env epoch s1 = (Ok vl, s2) →
  test_pass env epoch s2 = (Ok test_epoch_acc, s3) →
  ((epoch_body env epoch s).1 = Ok Break ↔ dge test_epoch_acc (Fin 80) = true) ∧
  (∀ q, test_epoch_acc = Fin q → dge test_epoch_acc (Fin 80) = true ↔ (80 <= q)%Q) ∧
  (dge test_epoch_acc (Fin 80) = true →
   ∀ rest,
     epoch_loop env (epoch :: rest) s = (Ok Break, add_message (MsgEarlyStop epoch) s3) ∧
     files (epoch_loop env (epoch :: rest) s).2 = files s) ∧
  (dge test_epoch_acc (Fin 80) = false →
   ∃ s4, epoch_body env epoch s = (Ok Continue, s4) ∧
     ∀ rest, epoch_loop env (epoch :: rest) s = epoch_loop env rest s4).
Proof.
  intros Htr Hvl Hte.
  pose proof (epoch_body_after_passes _ _ _ _ _ _ _ _ _ Htr Hvl Hte) as Hbody.
  destruct (passes_frame _ _ _ _ _ _ _ _ _ Htr Hvl Hte) as (Hfiles & _ & _).
  split_and!.
  - rewrite Hbody. destruct (dge test_epoch_acc (Fin 80)); simpl; split; congruence.
  - intros q ->. apply dge_fin.
  - intros Hge rest. rewrite Hge in Hbody. simpl.
    rewrite (bind_ok _ _ _ _ _ Hbody). simpl. split; [reflexivity | exact Hfiles].
  - intros Hlt. rewrite Hlt in Hbody. eexists. split; [exact Hbody|].
    intros rest. simpl. now rewrite (bind_ok _ _ _ _ _ Hbody).
Qed.

(** An epoch in which a pass raises writes no file. *)
Lemma epoch_body_error_files env epoch s e s' :
  epoch_body env epoch s = (Err e, s') → files s' = files s.
Proof.
  intros Hbody.
  pose proof (train_pass_files env epoch s) as F1.
  destruct (train_pass env epoch s) as [[tr|e1] s1] eqn:Htr.
  2:{ unfold epoch_body in Hbody. rewrite (bind_err _ _ _ _ _ Htr) in Hbody.
      inversion Hbody; subst. exact F1. }
  pose proof (val_pass_files env epoch s1) as F2.
  destruct (val_pass env epoch s1) as [[vl|e2] s2] eqn:Hvl.
  2:{ unfold epoch_body in Hbody.
      rewrite (bind_ok _ _ _ _ _ Htr), (bind_err _ _ _ _ _ Hvl) in Hbody.
      inversion Hbody; subst. unfold keeps in *. simpl in *. congruence. }
  pose proof (test_pass_files env epoch s2) as F3.
  destruct (test_pass env epoch s2) as [[acc|e3] s3] eqn:Hte.
  2:{ unfold epoch_body in Hbody.
      rewrite (bind_ok _ _ _ _ _ Htr), (bind_ok _ _ _ _ _ Hvl),
        (bind_err _ _ _ _ _ Hte) in Hbody.
      inversion Hbody; subst. unfold keeps in *. simpl in *. congruence. }
  rewrite (epoch_body_after_passes _ _ _ _ _ _ _ _ _ Htr Hvl Hte) in Hbody.
  destruct (dge acc (Fin 80)); discriminate.
Qed.

(** C4: in an epoch whose passes return, a checkpoint file is written
    exactly when the epoch index is a multiple of 5 and the test accuracy
    is not at least 80.0; the record written holds the epoch index, the
    model parameters and the optimiser state as the train pass left them,
    and the training loss of the epoch.  An epoch in which a pass raises
    writes nothing. *)
Theorem checkpoint_written_iff env epoch s :
  (∀ tr vl test_epoch_acc s1 s2 s3,
     train_pass env epoch s = (Ok tr, s1) →
     val_pass env epoch s1 = (Ok vl, s2) →
     test_pass env epoch s2 = (Ok test_epoch_acc, s3) →
     ∃ c s4, epoch_body env epoch s = (Ok c, s4) ∧
       files s4 = files s ++
         (if (epoch mod 5 =? 0)%nat && negb (dge test_epoch_acc (Fin 80))
          then [(checkpoint_path epoch,
                 CheckpointFile epoch (params s1) (optim s1) tr.1)]
          else [])) ∧
  (∀ e s', epoch_body env epoch s = (Err e, s') → files s' = files s).
Proof.
  split; [|apply epoch_body_error_files].
  intros tr vl acc s1 s2 s3 Htr Hvl Hte.
  destruct (passes_frame _ _ _ _ _ _ _ _ _ Htr Hvl Hte) as (Hfiles & Hpar & Hopt).
  rewrite (epoch_body_after_passes _ _ _ _ _ _ _ _ _ Htr Hvl Hte).
  rewrite checkpoint_step_spec.
  destruct (epoch mod 5 =? 0)%nat, (dge acc (Fin 80));
    do 2 eexists; (split; [reflexivity|]); cbn [andb negb add_message add_file files snd];
    rewrite ?app_nil_r; congruence.
Qed.

(** ** The whole run *)

#[local] Instance appends_preorder P : PreOrder (appends P).
Proof.
  split.
  - intros s. exists []. now rewrite app_nil_r.
  - intros s1 s2 s3 (l1 & H1 & P1) (l2 & H2 & P2). exists (l1 ++ l2).
    rewrite H2, H1, app_assoc. split; [reflexivity | now apply Forall_app].
Qed.

Lemma appends_same P s s' : files s' = files s → appends P s s'.
Proof. intros H. exists []. now rewrite app_nil_r. Qed.

Lemma appends_one P path f s : P (path, f) → appends P s (add_file path f s).
Proof. intros H. exists [(path, f)]. split; [reflexivity | now constructor]. Qed.

Ltac frame_leaf :=
  lazymatch goal with
  | |- appends _ _ (add_file _ _ _) => apply appends_one
  | |- appends _ _ _ => apply appends_same; reflexivity
  | |- keeps _ _ _ =>
      unfold keeps; cbn [locals set_locals set_training set_learner set_figure
                           add_file add_message];
      rewrite ?lookup_insert_ne by done; reflexivity
  | |- stays_bound ?n _ _ =>
      unfold stays_bound; cbn [locals set_locals set_training set_learner set_figure
                                 add_file add_message];
      let H := fresh in
      intros H;
      repeat match goal with
             | |- is_Some (<[?k := _]> _ !! _) =>
                 destruct (decide (k = n)) as [->|];
                 [rewrite lookup_insert_eq; eauto | rewrite lookup_insert_ne by done]
             end;
      try exact H
  end.

Lemma epoch_body_model_files env epoch :
  preserves (appends model_path) (epoch_body env epoch).
Proof. frame; frame_leaf. left. now eexists. Qed.

Lemma epoch_body_stays_bound name env epoch :
  preserves (stays_bound name) (epoch_body env epoch).
Proof. frame; frame_leaf. Qed.

Lemma epoch_body_val_losses env epoch :
  preserves (keeps (λ s, locals s !! "val_losses")) (epoch_body env epoch).
Proof. frame; frame_leaf. Qed.

Lemma epoch_body_val_accs env epoch :
  preserves (keeps (λ s, locals s !! "val_accs")) (epoch_body env epoch).
Proof. frame; frame_leaf. Qed.

Lemma setup_histories_bound env : histories_bound (setup env).
Proof.
  split; unfold setup; simpl.
  - rewrite lookup_insert_ne by done. rewrite lookup_insert_eq. eauto.
  - rewrite lookup_insert_eq. eauto.
Qed.

Lemma setup_no_val_history env :
  locals (setup env) !! "val_losses" = None ∧ locals (setup env) !! "val_accs" = None.
Proof. split; reflexivity. Qed.

Lemma epoch_loop_app env pre rest s s1 :
  epoch_loop env pre s = (Ok Continue, s1) →
  epoch_loop env (pre ++ rest) s = epoch_loop env rest s1.
Proof.
  revert s. induction pre as [|epoch pre IH]; intros s Hpre; simpl in *.
  - now inversion Hpre.
  - unfold bind in *. destruct (epoch_body env epoch s) as [[[|]|e] s0].
    + now apply IH.
    + discriminate.
    + discriminate.
Qed.

Lemma epoch_loop_invariants env epochs s :
  histories_bound s →
  locals s !! "val_losses" = None → locals s !! "val_accs" = None →
  histories_bound (epoch_loop env epochs s).2 ∧
  locals (epoch_loop env epochs s).2 !! "val_losses" = None ∧
  locals (epoch_loop env epochs s).2 !! "val_accs" = None ∧
  appends model_path s (epoch_loop env epochs s).2.
Proof.
  intros [Hl Ha] Hvl Hva.
  pose proof (epoch_loop_preserves (stays_bound "train_losses") env epochs
                (epoch_body_stays_bound _ env) s) as B1.
  pose proof (epoch_loop_preserves (stays_bound "train_accs") env epochs
                (epoch_body_stays_bound _ env) s) as B2.
  pose proof (epoch_loop_preserves _ env epochs (epoch_body_val_losses env) s) as K1.
  pose proof (epoch_loop_preserves _ env epochs (epoch_body_val_accs env) s) as K2.
  pose proof (epoch_loop_preserves _ env epochs (epoch_body_model_files env) s) as F.
  unfold keeps, stays_bound, histories_bound in *.
  split_and!; [auto | auto | congruence | congruence | exact F].
Qed.

(** What follows the loop: the final model is saved, then the loss plot
    reads a name that was never bound. *)
Lemma finalize_outcome env s :
  is_Some (locals s !! "train_losses") → locals s !! "val_losses" = None →
  ∃ s', finalize env s = (Err (NameError "val_losses"), s') ∧
    files s' = files s ++ [(final_model_path, StateDictFile (params s))] ∧
    locals s' = locals s.
Proof.
  intros [l Hl] Hv. eexists.
  unfold finalize, save_final_model, plot_losses, plt_figure, plt_plot, save, print,
    load, raise, bind, get, modify, ret, lift.
  cbn [locals add_file add_message set_figure]. rewrite Hl.
  cbn [locals add_file add_message set_figure]. rewrite Hv.
  split_and!; reflexivity.
Qed.

Lemma train_model_outcome env :
  match epoch_loop env (seq 1 num_epochs) (setup env) with
  | (Err e, s') => train_model env = (Err e, s')
  | (Ok c, s') =>
      ∃ s'', train_model env = (Err (NameError "val_losses"), s'') ∧
        files s'' = files s' ++ [(final_model_path, StateDictFile (params s'))] ∧
        locals s'' = locals s'
  end.
Proof.
  destruct (setup_no_val_history env) as [Hvl Hva].
  destruct (epoch_loop_invariants env (seq 1 num_epochs) (setup env)
              (setup_histories_bound env) Hvl Hva) as ([Hb _] & Hv & _).
  unfold train_model, run, bind.
  destruct (epoch_loop env (seq 1 num_epochs) (setup env)) as [[c|e] s'].
  - apply finalize_outcome; assumption.
  - reflexivity.
Qed.

Lemma model_path_not_plot (pf : string * file) :
  model_path pf →
  pf.1 ≠ loss_plot_path ∧ pf.1 ≠ accuracy_plot_path ∧ pf.1 ≠ confusion_plot_path.
Proof.
  intros [[epoch ->] | ->]; split_and!; discriminate.
Qed.

(** C8: when the epoch loop ends, by early stop or by exhausting its
    range, the parameters of the model are written to
    [checkpoints/final_model.pth], and the file is among the files of the
    run. *)
Theorem final_model_always_saved env c s' :
  epoch_loop env (seq 1 num_epochs) (setup env) = (Ok c, s') →
  ∃ s'', save_final_model s' = (Ok tt, s'') ∧
    files s'' = files s' ++ [(final_model_path, StateDictFile (params s'))] ∧
    final_model_path = "checkpoints/final_model.pth" ∧
    In (final_model_path, StateDictFile (params s')) (files (train_model env).2).
Proof.
  intros Hloop. eexists. split; [reflexivity|]. split; [reflexivity|].
  split; [reflexivity|].
  pose proof (train_model_outcome env) as Hout. rewrite Hloop in Hout.
  destruct Hout as (s'' & -> & Hfiles & _). simpl. rewrite Hfiles.
  apply in_or_app. right. now left.
Qed.

(** C2, on the code: no run writes any of the three image files.  A run
    whose loop ends stops with [NameError] at the first read of
    [val_losses] (line 135), before the first [savefig]; a run whose loop
    raises stops there. *)
Theorem plots_never_written env :
  ((train_model env).1 = Err (NameError "val_losses") ∨
   ∃ e, (epoch_loop env (seq 1 num_epochs) (setup env)).1 = Err e ∧
        (train_model env).1 = Err e) ∧
  ∀ path f, In (path, f) (files (train_model env).2) →
    path ≠ loss_plot_path ∧ path ≠ accuracy_plot_path ∧ path ≠ confusion_plot_path.
Proof.
  destruct (setup_no_val_history env) as [Hvl Hva].
  destruct (epoch_loop_invariants env (seq 1 num_epochs) (setup env)
              (setup_histories_bound env) Hvl Hva) as (_ & _ & _ & added & Hadd & Hall).
  pose proof (train_model_outcome env) as Hout.
  destruct (epoch_loop env (seq 1 num_epochs) (setup env)) as [[c|e] s'];
    simpl in Hadd.
  - destruct Hout as (s'' & -> & Hfiles & _). simpl. split; [now left|].
    intros path f Hin. rewrite Hfiles, Hadd in Hin.
    apply in_app_or in Hin as [Hin | [Heq | []]].
    + rewrite Forall_forall in Hall.
      apply (model_path_not_plot (path, f)), Hall, list_elem_of_In, Hin.
    + injection Heq as <- <-.
      apply (model_path_not_plot (final_model_path, StateDictFile (params s'))).
      now right.
  - rewrite Hout. simpl. split; [right; eauto|].
    intros path f Hin. rewrite Hadd in Hin.
    rewrite Forall_forall in Hall.
    apply (model_path_not_plot (path, f)), Hall, list_elem_of_In, Hin.
Qed.

Lemma val_pass_locals env epoch : preserves (keeps locals) (val_pass env epoch).
Proof. frame; reflexivity. Qed.

(** C3: the validation pass of an epoch computes its loss and accuracy
    and leaves every list of the run as it was, [train_losses] and
    [train_accs] among them; no list named [val_losses] or [val_accs] is
    ever bound, neither during the loop nor at the end of the run, so the
    plotting step of a run whose loop ends fails at its first read of
    [val_losses]. *)
Theorem validation_metrics_never_recorded env :
  (∀ epoch s, locals (val_pass env epoch s).2 = locals s) ∧
  (∀ epoch s, 0 < samples (dataloaders env val epoch) →
     ∃ val_epoch_loss val_epoch_acc s',
       val_pass env epoch s = (Ok (val_epoch_loss, val_epoch_acc), s') ∧
       locals s' !! "train_losses" = locals s !! "train_losses" ∧
       locals s' !! "train_accs" = locals s !! "train_accs") ∧
  (∀ epochs,
     locals (epoch_loop env epochs (setup env)).2 !! "val_losses" = None ∧
     locals (epoch_loop env epochs (setup env)).2 !! "val_accs" = None) ∧
  (locals (train_model env).2 !! "val_losses" = None ∧
   locals (train_model env).2 !! "val_accs" = None) ∧
  (∀ c s', epoch_loop env (seq 1 num_epochs) (setup env) = (Ok c, s') →
     (train_model env).1 = Err (NameError "val_losses")).
Proof.
  destruct (setup_no_val_history env) as [Hvl Hva].
  assert (Hloop : ∀ epochs,
     locals (epoch_loop env epochs (setup env)).2 !! "val_losses" = None ∧
     locals (epoch_loop env epochs (setup env)).2 !! "val_accs" = None).
  { intros epochs.
    destruct (epoch_loop_invariants env epochs (setup env)
                (setup_histories_bound env) Hvl Hva) as (_ & H1 & H2 & _).
    now split. }
  pose proof (train_model_outcome env) as Hout.
  split_and!.
  - intros epoch s. apply (val_pass_locals env epoch s).
  - intros epoch s Hpos.
    destruct (val_pass_ok env epoch s Hpos) as (rl & c & s1 & s' & _ & _ & Hp).
    do 2 eexists. exists s'. split; [exact Hp|].
    pose proof (val_pass_locals env epoch s) as Hk. rewrite Hp in Hk.
    unfold keeps in Hk. simpl in Hk. now rewrite Hk.
  - exact Hloop.
  - destruct (Hloop (seq 1 num_epochs)) as [H _].
    destruct (epoch_loop env (seq 1 num_epochs) (setup env)) as [[c|e] s'].
    + destruct Hout as (s'' & -> & _ & Hloc). simpl in *. now rewrite Hloc.
    + rewrite Hout. exact H.
  - destruct (Hloop (seq 1 num_epochs)) as [_ H].
    destruct (epoch_loop env (seq 1 num_epochs) (setup env)) as [[c|e] s'].
    + destruct Hout as (s'' & -> & _ & Hloc). simpl in *. now rewrite Hloc.
    + rewrite Hout. exact H.
  - intros c s' Heq. rewrite Heq in Hout. now destruct Hout as (s'' & -> & _).
Qed.

Lemma train_batch_lr acc (b : batch) :
  preserves (keeps (λ s, lr (optim s))) (train_batch acc b).
Proof. frame; reflexivity. Qed.

Lemma train_batch_sched acc (b : batch) : preserves (keeps sched) (train_batch acc b).
Proof. frame; reflexivity. Qed.

Lemma run_lr env : preserves (keeps (λ s, lr (optim s))) (run env).
Proof.
  unfold run. apply preserves_bind; [exact _| |].
  - apply epoch_loop_preserves; [exact _|]. apply epoch_body_lr.
  - intros _. frame; reflexivity.
Qed.

Lemma run_sched env : preserves (keeps sched) (run env).
Proof.
  unfold run. apply preserves_bind; [exact _| |].
  - apply epoch_loop_preserves; [exact _|]. apply epoch_body_sched.
  - intros _. frame; reflexivity.
Qed.

(** C5: the scheduler built during setup is never stepped.  After setup
    the learning rate is 0.0001 and the scheduler stands at epoch 0; no
    training step and no epoch changes either of them, so every training
    step of every epoch, and the end of the run, see the learning rate
    0.0001 and the scheduler still at epoch 0. *)
Theorem learning_rate_never_changes env :
  lr (optim (setup env)) = 1 # 10000 ∧
  last_epoch (sched (setup env)) = 0 ∧
  (∀ acc b s,
     lr (optim (train_batch acc b s).2) = lr (optim s) ∧
     sched (train_batch acc b s).2 = sched s) ∧
  (∀ epoch s,
     lr (optim (epoch_body env epoch s).2) = lr (optim s) ∧
     sched (epoch_body env epoch s).2 = sched s) ∧
  (∀ epochs acc,
     let s := (epoch_loop env epochs (setup env)).2 in
     lr (optim s) = 1 # 10000 ∧ last_epoch (sched s) = 0 ∧
     ∀ bs, lr (optim (for_each train_batch bs acc s).2) = 1 # 10000) ∧
  lr (optim (train_model env).2) = 1 # 10000 ∧
  last_epoch (sched (train_model env).2) = 0.
Proof.
  split_and!.
  - reflexivity.
  - reflexivity.
  - intros acc b s. split; [apply (train_batch_lr acc b s) | apply (train_batch_sched acc b s)].
  - intros epoch s. split; [apply (epoch_body_lr env epoch s) | apply (epoch_body_sched env epoch s)].
  - intros epochs acc s.
    pose proof (epoch_loop_preserves _ env epochs (epoch_body_lr env) (setup env)) as Hlr.
    pose proof (epoch_loop_preserves _ env epochs (epoch_body_sched env) (setup env)) as Hsc.
    unfold keeps in *. fold s in Hlr, Hsc. split_and!.
    + now rewrite Hlr.
    + now rewrite Hsc.
    + intros bs.
      pose proof (preserves_for_each (keeps (λ s, lr (optim s))) train_batch bs acc
                    train_batch_lr s) as Hb.
      unfold keeps in Hb. now rewrite Hb, Hlr.
  - pose proof (run_lr env (setup env)) as H. unfold keeps in H.
    unfold train_model. now rewrite H.
  - pose proof (run_sched env (setup env)) as H. unfold keeps in H.
    unfold train_model. now rewrite H.
Qed.

(** ** Exceptions *)

Lemma epoch_body_train_error env epoch s e s1 :
  train_pass env epoch s = (Err e, s1) → epoch_body env epoch s = (Err e, s1).
Proof. intros H. unfold epoch_body. now rewrite (bind_err _ _ _ _ _ H). Qed.

Lemma epoch_body_val_error env epoch s tr s1 e s2 :
  train_pass env epoch s = (Ok tr, s1) → val_pass env epoch s1 = (Err e, s2) →
  epoch_body env epoch s = (Err e, s2).
Proof.
  intros H1 H2. unfold epoch_body.
  now rewrite (bind_ok _ _ _ _ _ H1), (bind_err _ _ _ _ _ H2).
Qed.

Lemma epoch_body_test_error env epoch s tr s1 vl s2 e s3 :
  train_pass env epoch s = (Ok tr, s1) → val_pass env epoch s1 = (Ok vl, s2) →
  test_pass env epoch s2 = (Err e, s3) →
  epoch_body env epoch s = (Err e, s3).
Proof.
  intros H1 H2 H3. unfold epoch_body.
  now rewrite (bind_ok _ _ _ _ _ H1), (bind_ok _ _ _ _ _ H2), (bind_err _ _ _ _ _ H3).
Qed.

(** An exception in the body of an epoch ends the run then and there. *)
Lemma run_epoch_error env pre epoch rest s e s' :
  seq 1 num_epochs = pre ++ epoch :: rest →
  epoch_loop env pre (setup env) = (Ok Continue, s) →
  epoch_body env epoch s = (Err e, s') →
  train_model env = (Err e, s') ∧ files s' = files s.
Proof.
  intros Hseq Hpre Hbody. split; [|eapply epoch_body_error_files; exact Hbody].
  unfold train_model, run. rewrite Hseq.
  apply bind_err. rewrite (epoch_loop_app _ _ _ _ _ Hpre). simpl.
  now apply bind_err.
Qed.

Lemma reached_histories_bound env pre s c :
  epoch_loop env pre (setup env) = (Ok c, s) → histories_bound s.
Proof.
  intros Hpre. destruct (setup_no_val_history env) as [Hvl Hva].
  destruct (epoch_loop_invariants env pre (setup env)
              (setup_histories_bound env) Hvl Hva) as (Hb & _).
  now rewrite Hpre in Hb.
Qed.

(** C9, as the code has it: in an epoch the run reaches, a train pass or
    a validation pass without samples raises [ZeroDivisionError] at its
    loss reduction; nothing catches it, the run ends with it, and no file
    is written after the epoch began.  A test pass without samples raises
    no division error: when its loader yields no batch the accuracy
    reduction raises [AttributeError], which ends the run in the same
    way, and when it yields batches without samples the accuracy is
    [nan], the early stop does not trigger and the epoch completes. *)
Theorem zero_samples_outcome env pre epoch rest s :
  seq 1 num_epochs = pre ++ epoch :: rest →
  epoch_loop env pre (setup env) = (Ok Continue, s) →
  (samples (dataloaders env train epoch) = 0 →
   ∃ s', train_model env = (Err ZeroDivisionError, s') ∧ files s' = files s) ∧
  (0 < samples (dataloaders env train epoch) →
   samples (dataloaders env val epoch) = 0 →
   ∃ s', train_model env = (Err ZeroDivisionError, s') ∧ files s' = files s) ∧
  (0 < samples (dataloaders env train epoch) →
   0 < samples (dataloaders env val epoch) →
   dataloaders env test epoch = [] →
   ∃ s', train_model env = (Err (AttributeError "double"), s') ∧ files s' = files s) ∧
  (0 < samples (dataloaders env train epoch) →
   0 < samples (dataloaders env val epoch) →
   dataloaders env test epoch ≠ [] →
   samples (dataloaders env test epoch) = 0 →
   ∃ tr vl s1 s2 s3 s4,
     train_pass env epoch s = (Ok tr, s1) ∧
     val_pass env epoch s1 = (Ok vl, s2) ∧
     test_pass env epoch s2 = (Ok NaN, s3) ∧
     epoch_body env epoch s = (Ok Continue, s4)).
Proof.
  intros Hseq Hpre.
  pose proof (reached_histories_bound _ _ _ _ Hpre) as Hb.
  split_and!.
  - intros Hzero. destruct (train_pass_zero env epoch s Hzero) as (s' & Htr).
    exists s'. eapply run_epoch_error; eauto using epoch_body_train_error.
  - intros Hpos Hzero.
    destruct (train_pass_ok env epoch s Hb Hpos) as (? & ? & ? & s1 & _ & _ & Htr & _).
    destruct (val_pass_zero env epoch s1 Hzero) as (s' & Hvl).
    exists s'. eapply run_epoch_error; eauto using epoch_body_val_error.
  - intros Hpos Hvpos Hnil.
    destruct (train_pass_ok env epoch s Hb Hpos) as (? & ? & ? & s1 & _ & _ & Htr & _).
    destruct (val_pass_ok env epoch s1 Hvpos) as (? & ? & ? & s2 & _ & _ & Hvl).
    destruct (test_pass_no_batch env epoch s2 Hnil) as (s' & Hte).
    exists s'. eapply run_epoch_error; eauto using epoch_body_test_error.
  - intros Hpos Hvpos Hne Hzero.
    destruct (train_pass_ok env epoch s Hb Hpos) as (? & ? & ? & s1 & _ & _ & Htr & _).
    destruct (val_pass_ok env epoch s1 Hvpos) as (? & ? & ? & s2 & _ & _ & Hvl).
    destruct (test_pass_empty_batches env epoch s2 Hne Hzero) as (s3 & Hte).
    do 2 eexists. exists s1, s2, s3. eexists. split_and!; eauto.
    now rewrite (epoch_body_after_passes _ _ _ _ _ _ _ _ _ Htr Hvl Hte).
Qed.

(** ** The lists behind the confusion matrix *)

Lemma predictions_length s (bs : list batch) :
  Z.of_nat (length (predictions s bs)) = samples bs.
Proof.
  unfold predictions. induction bs as [|b bs IH]; simpl; [reflexivity|].
  rewrite length_app, forward_preds_length, Nat2Z.inj_add, IH.
  unfold size0, inputs_of. now rewrite length_map.
Qed.

Lemma true_labels_length (bs : list batch) :
  Z.of_nat (length (true_labels bs)) = samples bs.
Proof.
  unfold true_labels. induction bs as [|b bs IH]; simpl; [reflexivity|].
  rewrite length_app, Nat2Z.inj_add, IH.
  unfold size0, inputs_of, labels_of. now rewrite !length_map.
Qed.

(** An epoch that completes went through its three passes. *)
Lemma epoch_body_ok_inv env epoch s c s' :
  epoch_body env epoch s = (Ok c, s') →
  ∃ tr vl acc s1 s2 s3,
    train_pass env epoch s = (Ok tr, s1) ∧
    val_pass env epoch s1 = (Ok vl, s2) ∧
    test_pass env epoch s2 = (Ok acc, s3) ∧
    locals s' = locals s3 ∧ params s' = params s3 ∧ training s' = training s3.
Proof.
  intros Hbody.
  destruct (train_pass env epoch s) as [[tr|e1] s1] eqn:Htr.
  2:{ rewrite (epoch_body_train_error _ _ _ _ _ Htr) in Hbody. discriminate. }
  destruct (val_pass env epoch s1) as [[vl|e2] s2] eqn:Hvl.
  2:{ rewrite (epoch_body_val_error _ _ _ _ _ _ _ Htr Hvl) in Hbody. discriminate. }
  destruct (test_pass env epoch s2) as [[acc|e3] s3] eqn:Hte.
  2:{ rewrite (epoch_body_test_error _ _ _ _ _ _ _ _ _ Htr Hvl Hte) in Hbody.
      discriminate. }
  rewrite (epoch_body_after_passes _ _ _ _ _ _ _ _ _ Htr Hvl Hte) in Hbody.
  exists tr, vl, acc, s1, s2, s3. split_and!; try done.
  all:
    rewrite checkpoint_step_spec in Hbody;
    destruct (dge acc (Fin 80)), (epoch mod 5 =? 0)%nat;
    injection Hbody as <- <-; reflexivity.
Qed.

Lemma test_pass_collects env epoch s acc s' :
  test_pass env epoch s = (Ok acc, s') →
  locals s' !! "all_preds" =
    Some (map PInt (predictions s (dataloaders env test epoch))) ∧
  locals s' !! "all_labels" =
    Some (map PInt (true_labels (dataloaders env test epoch))) ∧
  params s' = params s ∧ training s' = training s.
Proof.
  intros Hte.
  destruct (test_loop_spec env epoch s) as ([[l c] t] & s1 & Hloop & _ & Hp & Hl & Hpar & Htr).
  unfold test_pass in Hte. rewrite (bind_ok _ _ _ _ _ Hloop) in Hte.
  unfold lift in Hte. injection Hte as _ <-. now split_and!.
Qed.

(** C10: the test loop starts from empty lists whatever they held
    before, so after it [all_preds] and [all_labels] hold the predictions
    and the true labels of that epoch's test batches and nothing else,
    and each has [test_total_samples] elements.  When the loop ends, by
    [break] in an epoch or after the last epoch of its range, the two
    lists are those of that last executed epoch. *)
Theorem confusion_lists_are_last_test_pass env :
  (∀ epoch s,
     ∃ test_running_loss test_running_corrects test_total_samples s',
       test_loop env epoch s =
         (Ok (test_running_loss, test_running_corrects, test_total_samples), s') ∧
       locals s' !! "all_preds" =
         Some (map PInt (predictions s (dataloaders env test epoch))) ∧
       locals s' !! "all_labels" =
         Some (map PInt (true_labels (dataloaders env test epoch))) ∧
       Z.of_nat (length (predictions s (dataloaders env test epoch))) = test_total_samples ∧
       Z.of_nat (length (true_labels (dataloaders env test epoch))) = test_total_samples) ∧
  (∀ pre epoch rest s0 s c s',
     epoch_loop env pre s0 = (Ok Continue, s) →
     epoch_body env epoch s = (Ok c, s') →
     c = Break ∨ rest = [] →
     epoch_loop env (pre ++ epoch :: rest) s0 = (Ok c, s') ∧
     locals s' !! "all_preds" =
       Some (map PInt (predictions s' (dataloaders env test epoch))) ∧
     locals s' !! "all_labels" =
       Some (map PInt (true_labels (dataloaders env test epoch)))).
Proof.
  split.
  - intros epoch s.
    destruct (test_loop_spec env epoch s)
      as ([[l c] t] & s' & Hloop & (Htot & _) & Hp & Hl & _).
    simpl in Htot. exists l, c, t, s'. split_and!; try assumption.
    + now rewrite predictions_length.
    + now rewrite true_labels_length.
  - intros pre epoch rest s0 s c s' Hpre Hbody Hlast. split_and!.
    + rewrite (epoch_loop_app _ _ _ _ _ Hpre). simpl.
      rewrite (bind_ok _ _ _ _ _ Hbody).
      destruct Hlast as [-> | ->]; [reflexivity | now destruct c].
    + destruct (epoch_body_ok_inv _ _ _ _ _ Hbody)
        as (tr & vl & acc & s1 & s2 & s3 & _ & _ & Hte & Hloc & Hpar & Htr).
      destruct (test_pass_collects _ _ _ _ _ Hte) as (Hp & _ & Hpar3 & Htr3).
      rewrite Hloc, Hp. do 2 f_equal. apply predictions_ext; congruence.
    + destruct (epoch_body_ok_inv _ _ _ _ _ Hbody)
        as (tr & vl & acc & s1 & s2 & s3 & _ & _ & Hte & Hloc & Hpar & Htr).
      destruct (test_pass_collects _ _ _ _ _ Hte) as (_ & Hl & _).
      now rewrite Hloc.
Qed.

(** * Further properties of the run *)

(** ** Evaluation leaves the learner alone *)

Lemma val_pass_scaler env epoch : preserves (keeps scaler) (val_pass env epoch).
Proof. frame; reflexivity. Qed.

Lemma test_pass_scaler env epoch : preserves (keeps scaler) (test_pass env epoch).
Proof. frame; reflexivity. Qed.

Lemma test_pass_training env epoch : preserves (keeps training) (test_pass env epoch).
Proof. frame; reflexivity. Qed.

Lemma val_pass_training env epoch s : training (val_pass env epoch s).2 = false.
Proof.
  destruct (val_loop_spec env epoch s) as ([[l c] t] & Hloop & _).
  unfold val_pass. rewrite (bind_ok _ _ _ _ _ Hloop).
  unfold bind, lift, print, modify, ret.
  destruct (py_truediv l t); [|reflexivity].
  destruct (accuracy_percent c t); reflexivity.
Qed.

(** The validation pass and the test pass never update the model: the
    parameters, the optimiser state, the gradient scaler and the files
    are after them what they were before, whether the pass returns or
    raises.  The validation pass leaves the model in evaluation mode and
    the test pass does not change the mode. *)
Theorem evaluation_passes_do_not_train env epoch s :
  (params (val_pass env epoch s).2 = params s ∧
   optim (val_pass env epoch s).2 = optim s ∧
   scaler (val_pass env epoch s).2 = scaler s ∧
   files (val_pass env epoch s).2 = files s ∧
   training (val_pass env epoch s).2 = false) ∧
  (params (test_pass env epoch s).2 = params s ∧
   optim (test_pass env epoch s).2 = optim s ∧
   scaler (test_pass env epoch s).2 = scaler s ∧
   files (test_pass env epoch s).2 = files s ∧
   training (test_pass env epoch s).2 = training s).
Proof.
  split; split_and!.
  - apply (val_pass_params env epoch s).
  - apply (val_pass_optim env epoch s).
  - apply (val_pass_scaler env epoch s).
  - apply (val_pass_files env epoch s).
  - apply val_pass_training.
  - apply (test_pass_params env epoch s).
  - apply (test_pass_optim env epoch s).
  - apply (test_pass_scaler env epoch s).
  - apply (test_pass_files env epoch s).
  - apply (test_pass_training env epoch s).
Qed.

(** ** The history lists *)

Lemma test_pass_train_losses env epoch :
  preserves (keeps (λ s, locals s !! "train_losses")) (test_pass env epoch).
Proof. frame; frame_leaf. Qed.

Lemma test_pass_train_accs env epoch :
  preserves (keeps (λ s, locals s !! "train_accs")) (test_pass env epoch).
Proof. frame; frame_leaf. Qed.

(** The train pass appends one entry to each history list when it
    returns, and none when it raises. *)
Lemma train_pass_histories env epoch s n :
  histories_of_length n s →
  match (train_pass env epoch s).1 with
  | Ok _ => histories_of_length (S n) (train_pass env epoch s).2
  | Err _ => histories_of_length n (train_pass env epoch s).2
  end.
Proof.
  intros (l & a & Hl & Ha & Hnl & Hna).
  destruct (train_loop_spec env epoch s) as ([[rl c] t] & s1 & Hloop & _).
  pose proof (train_loop_locals env epoch s) as Hloc.
  rewrite Hloop in Hloc. unfold keeps in Hloc. simpl in Hloc.
  unfold train_pass. rewrite (bind_ok _ _ _ _ _ Hloop).
  destruct (py_truediv rl t) as [epoch_loss|e].
  2:{ rewrite (bind_lift_err (Err e) _ e _ eq_refl). simpl.
      exists l, a. rewrite Hloc. now split_and!. }
  rewrite (bind_lift_ok (Ok epoch_loss) _ epoch_loss _ eq_refl).
  destruct (accuracy_percent c t) as [epoch_acc|e].
  2:{ rewrite (bind_lift_err (Err e) _ e _ eq_refl). simpl.
      exists l, a. rewrite Hloc. now split_and!. }
  rewrite (bind_lift_ok (Ok epoch_acc) _ epoch_acc _ eq_refl).
  unfold list_append.
  erewrite bind_ok by (apply list_extend_bound; rewrite Hloc; exact Hl).
  erewrite bind_ok
    by (apply list_extend_bound; simpl; rewrite lookup_insert_ne by done;
        rewrite Hloc; exact Ha).
  unfold print, bind, modify, ret. simpl.
  exists (l ++ [PFloat epoch_loss]), (a ++ [PFloat epoch_acc]).
  cbn [locals add_message set_locals].
  rewrite lookup_insert_ne by done. rewrite !lookup_insert_eq.
  rewrite !length_app. simpl. split_and!; (reflexivity || lia).
Qed.

Lemma histories_of_length_ext n s s' :
  locals s' !! "train_losses" = locals s !! "train_losses" →
  locals s' !! "train_accs" = locals s !! "train_accs" →
  histories_of_length n s → histories_of_length n s'.
Proof.
  intros H1 H2 (l & a & Hl & Ha & Hn). exists l, a. rewrite H1, H2. now split_and!.
Qed.

(** The body of an epoch: one more entry in each list once the train
    pass has returned, whatever happens afterwards. *)
Lemma epoch_body_histories env epoch s n :
  histories_of_length n s →
  match (epoch_body env epoch s).1 with
  | Ok _ => histories_of_length (S n) (epoch_body env epoch s).2
  | Err _ => histories_of_length n (epoch_body env epoch s).2 ∨
             histories_of_length (S n) (epoch_body env epoch s).2
  end.
Proof.
  intros Hn. pose proof (train_pass_histories env epoch s n Hn) as Htrain.
  destruct (train_pass env epoch s) as [[tr|e1] s1] eqn:Htr; simpl in Htrain.
  2:{ rewrite (epoch_body_train_error _ _ _ _ _ Htr). simpl. now left. }
  pose proof (val_pass_locals env epoch s1) as Hv. unfold keeps in Hv.
  destruct (val_pass env epoch s1) as [[vl|e2] s2] eqn:Hvl; simpl in Hv.
  2:{ rewrite (epoch_body_val_error _ _ _ _ _ _ _ Htr Hvl). simpl. right.
      eapply histories_of_length_ext; [| |exact Htrain]; now rewrite Hv. }
  pose proof (test_pass_train_losses env epoch s2) as Ht1.
  pose proof (test_pass_train_accs env epoch s2) as Ht2. unfold keeps in Ht1, Ht2.
  destruct (test_pass env epoch s2) as [[acc|e3] s3] eqn:Hte; simpl in Ht1, Ht2.
  2:{ rewrite (epoch_body_test_error _ _ _ _ _ _ _ _ _ Htr Hvl Hte). simpl. right.
      eapply histories_of_length_ext; [| |exact Htrain]; congruence. }
  rewrite (epoch_body_after_passes _ _ _ _ _ _ _ _ _ Htr Hvl Hte).
  rewrite checkpoint_step_spec.
  destruct (dge acc (Fin 80)), (epoch mod 5 =? 0)%nat; simpl;
    (eapply histories_of_length_ext; [| |exact Htrain]); simpl; congruence.
Qed.

Lemma setup_histories_empty env : histories_of_length 0 (setup env).
Proof.
  exists [], []. unfold setup. simpl.
  rewrite lookup_insert_ne by done. rewrite !lookup_insert_eq. now split_and!.
Qed.

Lemma epoch_loop_histories env epochs s n :
  histories_of_length n s →
  ∃ k, (k ≤ length epochs)%nat ∧
    histories_of_length (n + k) (epoch_loop env epochs s).2 ∧
    ((epoch_loop env epochs s).1 = Ok Continue → k = length epochs).
Proof.
  revert s n. induction epochs as [|epoch rest IH]; intros s n Hn; simpl.
  - exists 0%nat. rewrite Nat.add_0_r. now split_and!.
  - pose proof (epoch_body_histories env epoch s n Hn) as Hbody.
    unfold bind. destruct (epoch_body env epoch s) as [[[|]|e] s1]; simpl in *.
    + destruct (IH s1 (S n) Hbody) as (k & Hk & Hlen & Hcont).
      exists (S k). rewrite Nat.add_succ_r. split_and!; [lia | exact Hlen |].
      intros Hc. now rewrite (Hcont Hc).
    + exists 1%nat. rewrite Nat.add_1_r. split_and!; [lia | exact Hbody | discriminate].
    + destruct Hbody as [Hbody|Hbody].
      * exists 0%nat. rewrite Nat.add_0_r. split_and!; [lia | exact Hbody | discriminate].
      * exists 1%nat. rewrite Nat.add_1_r. split_and!; [lia | exact Hbody | discriminate].
Qed.

(** The two history lists grow in lockstep: wherever the epoch loop
    stands or ends, [train_losses] and [train_accs] are bound and hold
    the same number of entries, at most one per epoch of the range; after
    a stretch of epochs that all completed without a [break] they hold
    exactly one entry per epoch. *)
Theorem history_lists_grow_in_lockstep env epochs :
  ∃ l a,
    locals (epoch_loop env epochs (setup env)).2 !! "train_losses" = Some l ∧
    locals (epoch_loop env epochs (setup env)).2 !! "train_accs" = Some a ∧
    length l = length a ∧ (length l ≤ length epochs)%nat ∧
    ((epoch_loop env epochs (setup env)).1 = Ok Continue → length l = length epochs).
Proof.
  destruct (epoch_loop_histories env epochs (setup env) 0 (setup_histories_empty env))
    as (k & Hk & (l & a & Hl & Ha & Hnl & Hna) & Hcont).
  exists l, a. simpl in Hnl, Hna. split_and!; try assumption; try lia.
  intros Hc. rewrite (Hcont Hc) in Hnl. exact Hnl.
Qed.

(** ** The files of a run *)

(** An epoch adds its checkpoint when it completes without [break] and
    its index is a multiple of 5, and adds nothing otherwise. *)
Lemma epoch_body_paths env epoch s :
  match (epoch_body env epoch s).1 with
  | Ok Continue =>
      map fst (files (epoch_body env epoch s).2) =
      map fst (files s) ++
        (if (epoch mod 5 =? 0)%nat then [checkpoint_path epoch] else [])
  | _ => files (epoch_body env epoch s).2 = files s
  end.
Proof.
  destruct (epoch_body env epoch s) as [[c|e] s'] eqn:Hbody; cbn [fst snd].
  2:{ eapply epoch_body_error_files; exact Hbody. }
  destruct (epoch_body_ok_inv _ _ _ _ _ Hbody)
    as (tr & vl & acc & s1 & s2 & s3 & Htr & Hvl & Hte & _).
  destruct (passes_frame _ _ _ _ _ _ _ _ _ Htr Hvl Hte) as (Hfiles & _).
  rewrite (epoch_body_after_passes _ _ _ _ _ _ _ _ _ Htr Hvl Hte) in Hbody.
  rewrite checkpoint_step_spec in Hbody.
  destruct (dge acc (Fin 80)), (epoch mod 5 =? 0)%nat;
    injection Hbody as <- <-; cbn [files add_message add_file];
    rewrite ?map_app, ?app_nil_r, ?Hfiles; reflexivity.
Qed.

Lemma epoch_loop_paths env epochs s :
  ∃ written rest,
    List.filter (λ e, (e mod 5 =? 0)%nat) epochs = written ++ rest ∧
    map fst (files (epoch_loop env epochs s).2) =
      map fst (files s) ++ map checkpoint_path written ∧
    ((epoch_loop env epochs s).1 = Ok Continue → rest = []).
Proof.
  revert s. induction epochs as [|epoch epochs IH]; intros s.
  - exists [], []. split_and!; [reflexivity | simpl; now rewrite app_nil_r | reflexivity].
  - cbn [epoch_loop List.filter].
    pose proof (epoch_body_paths env epoch s) as Hbody.
    unfold bind. destruct (epoch_body env epoch s) as [[[|]|e] s1];
      unfold ret; cbn [fst snd] in *.
    + destruct (IH s1) as (written & rest & Hfilter & Hpaths & Hcont).
      rewrite Hpaths, Hbody, Hfilter.
      destruct (epoch mod 5 =? 0)%nat.
      * exists (epoch :: written), rest.
        split_and!; [reflexivity | now rewrite <- app_assoc | exact Hcont].
      * exists written, rest.
        split_and!; [reflexivity | now rewrite app_nil_r | exact Hcont].
    + eexists [], _. rewrite Hbody.
      split_and!; [reflexivity | simpl; now rewrite app_nil_r | discriminate].
    + eexists [], _. rewrite Hbody.
      split_and!; [reflexivity | simpl; now rewrite app_nil_r | discriminate].
Qed.

(** The files of a run, in the order they are written: the checkpoint of
    epoch 5, then that of epoch 10, as far as the loop gets, and the
    final model when the loop ends; nothing else, and no path twice.  A
    loop that runs through its whole range writes both checkpoints. *)
Theorem run_writes_only_model_files env :
  In (map fst (files (train_model env).2))
     [ [];
       ["checkpoints/checkpoint_epoch_5.pth"];
       ["checkpoints/checkpoint_epoch_5.pth"; "checkpoints/checkpoint_epoch_10.pth"];
       ["checkpoints/final_model.pth"];
       ["checkpoints/checkpoint_epoch_5.pth"; "checkpoints/final_model.pth"];
       ["checkpoints/checkpoint_epoch_5.pth"; "checkpoints/checkpoint_epoch_10.pth";
        "checkpoints/final_model.pth"] ] ∧
  ((epoch_loop env (seq 1 num_epochs) (setup env)).1 = Ok Continue →
   map fst (files (train_model env).2) =
     ["checkpoints/checkpoint_epoch_5.pth"; "checkpoints/checkpoint_epoch_10.pth";
      "checkpoints/final_model.pth"]).
Proof.
  destruct (epoch_loop_paths env (seq 1 num_epochs) (setup env))
    as (written & rest & Hfilter & Hpaths & Hcont).
  pose proof (train_model_outcome env) as Hout.
  change (List.filter (λ e, (e mod 5 =? 0)%nat) (seq 1 num_epochs))
    with [5%nat; 10%nat] in Hfilter.
  change (map fst (files (setup env))) with (@nil string) in Hpaths.
  assert (Hw : written = [] ∨ written = [5%nat] ∨
               (written = [5%nat; 10%nat] ∧ rest = [])).
  { destruct written as [|w1 [|w2 [|w3 written]]]; simpl in Hfilter.
    - now left.
    - right; left. congruence.
    - right; right. injection Hfilter as -> -> ->. now split.
    - discriminate. }
  destruct (epoch_loop env (seq 1 num_epochs) (setup env)) as [[c|e] s'];
    simpl in Hpaths, Hcont.
  - destruct Hout as (s'' & -> & Hfiles & _). simpl. rewrite Hfiles, map_app, Hpaths.
    split.
    + destruct Hw as [-> | [-> | [-> _]]]; simpl; tauto.
    + intros Hc. injection Hc as ->. rewrite (Hcont eq_refl) in Hfilter.
      rewrite app_nil_r in Hfilter. subst written. reflexivity.
  - rewrite Hout. simpl. rewrite Hpaths. split; [|discriminate].
    destruct Hw as [-> | [-> | [-> _]]]; simpl; tauto.
Qed.

(** ** How a run can end *)






(** ** Accuracy as the share of correct predictions *)






(** ** The model that is saved *)



(** ** The epoch loss as a weighted mean *)






(** ** A loss that is not a number *)

Lemma accumulate_nan (acc : metrics) loss preds (b : batch) :
  acc.1.1 = NaN ∨ loss = NaN → (accumulate acc loss preds b).1.1 = NaN.
Proof.
  destruct acc as [[running_loss running_corrects] total_samples].
  cbn [accumulate fst snd]. intros [-> | ->]; [reflexivity|].
  unfold of_int. cbn [dmul]. now destruct running_loss.
Qed.

Lemma for_each_nan (body : metrics → batch → M state metrics) :
  (∀ acc b s, ∃ loss preds s',
     body acc b s = (Ok (accumulate acc loss preds b), s')) →
  ∀ bs acc s, acc.1.1 = NaN →
    ∃ acc' s', for_each body bs acc s = (Ok acc', s') ∧ acc'.1.1 = NaN.
Proof.
  intros Hbody bs. induction bs as [|b bs IH]; intros acc s Hacc.
  - exists acc, s. now split.
  - cbn [for_each].
    destruct (Hbody acc b s) as (loss & preds & s1 & Hb).
    rewrite (bind_ok _ _ _ _ _ Hb). apply IH. apply accumulate_nan. now left.
Qed.

Lemma val_batches_nan (bs : list batch) acc s b :
  In b bs →
  criterion (forward (training s) (params s) (inputs_of b)) (labels_of b) = NaN →
  ∃ acc', for_each val_batch bs acc s = (Ok acc', s) ∧ acc'.1.1 = NaN.
Proof.
  intros Hin Hnan. revert acc. induction bs as [|b' bs IH]; intros acc; [done|].
  cbn [for_each]. unfold bind at 1. unfold val_batch at 1. unfold bind, get, ret.
  destruct Hin as [-> | Hin].
  - rewrite Hnan.
    match goal with |- context [for_each val_batch bs ?a s] =>
      destruct (for_each_nan val_batch) with (bs := bs) (acc := a) (s := s)
        as (acc' & s' & Hrun & Hacc) end.
    { intros acc0 b0 s0. do 3 eexists. unfold val_batch, bind, get, ret. reflexivity. }
    { apply accumulate_nan. now right. }
    destruct (val_batches_spec bs
                (accumulate acc NaN
                   (map argmax (forward (training s) (params s) (inputs_of b))) b) s)
      as (acc'' & Hrun' & _).
    rewrite Hrun' in Hrun. injection Hrun as <- <-. eauto.
  - now apply IH.
Qed.

(** A loss that is [nan] raises nothing.  When the criterion returns
    [nan] on the first training batch of an epoch, the train pass still
    returns: its loss is [nan] and its accuracy is a percentage.  When it
    returns [nan] on some validation batch, the validation pass returns a
    [nan] loss in the same way. *)
Theorem nan_loss_is_silent env epoch s :
  (∀ b bs, histories_bound s →
     dataloaders env train epoch = b :: bs →
     0 < samples (b :: bs) →
     criterion (forward true (params s) (inputs_of b)) (labels_of b) = NaN →
     ∃ epoch_acc s',
       train_pass env epoch s = (Ok (NaN, Fin epoch_acc), s') ∧
       (0 <= epoch_acc)%Q ∧ (epoch_acc <= 100)%Q) ∧
  (∀ b, In b (dataloaders env val epoch) →
     0 < samples (dataloaders env val epoch) →
     criterion (forward false (params s) (inputs_of b)) (labels_of b) = NaN →
     ∃ val_epoch_acc s',
       val_pass env epoch s = (Ok (NaN, Fin val_epoch_acc), s') ∧
       (0 <= val_epoch_acc)%Q ∧ (val_epoch_acc <= 100)%Q).
Proof.
  split.
  - intros b bs Hb Hloader Hpos Hnan. rewrite <- Hloader in Hpos.
    destruct (train_pass_ok env epoch s Hb Hpos) as (rl & c & s1 & s' & Hloop & Hc & Hp & _).
    destruct (percent_bounds _ _ Hc Hpos) as [H0 H100].
    unfold train_loop, bind, modify in Hloop. rewrite Hloader in Hloop.
    cbn [for_each] in Hloop. unfold bind at 1 in Hloop. unfold train_batch at 1 in Hloop.
    unfold bind, get, modify, ret in Hloop. cbn [training params set_training] in Hloop.
    rewrite Hnan in Hloop.
    match type of Hloop with for_each train_batch bs ?a ?t = _ =>
      destruct (for_each_nan train_batch) with (bs := bs) (acc := a) (s := t)
        as (acc' & s'' & Hrun & Hacc) end.
    { intros acc0 b0 s0. do 3 eexists. unfold train_batch, bind, get, modify, ret. reflexivity. }
    { apply accumulate_nan. now right. }
    rewrite Hrun in Hloop. injection Hloop as -> _. cbn [fst] in Hacc. subst rl.
    do 2 eexists. split_and!; [exact Hp | exact H0 | exact H100].
  - intros b Hin Hpos Hnan.
    destruct (val_pass_ok env epoch s Hpos) as (rl & c & s1 & s' & Hloop & Hc & Hp).
    destruct (percent_bounds _ _ Hc Hpos) as [H0 H100].
    destruct (val_batches_nan (dataloaders env val epoch) metrics0 (set_training false s) b
                Hin Hnan) as (acc' & Hrun & Hacc).
    unfold val_loop, bind, modify in Hloop. rewrite Hrun in Hloop.
    injection Hloop as -> _. cbn [fst] in Hacc. subst rl.
    do 2 eexists. split_and!; [exact Hp | exact H0 | exact H100].
Qed.

End Properties.

(** * The theorems at concrete runs *)

(** The passes of epoch 2 of [env_stop2] return, the test accuracy is
    100, and the loop stops there without running epoch 3. *)
Lemma early_stop_exactly_at_80_witness :
  let s := (epoch_loop env_stop2 [1%nat] (setup env_stop2)).2 in
  (epoch_body env_stop2 2 s).1 = Ok Break ∧
  (epoch_loop env_stop2 [2; 3]%nat s).1 = Ok Break ∧
  files (epoch_loop env_stop2 [2; 3]%nat s).2 = files s.
Proof.
  intros s.
  edestruct (early_stop_exactly_at_80 env_stop2 2 s) as (Hiff & _ & Hstop & _);
    [vm_compute; reflexivity | vm_compute; reflexivity | vm_compute; reflexivity |].
  assert (Hge : dge (Fin (100 # 1)) (Fin 80) = true) by reflexivity.
  destruct (Hstop Hge [3%nat]) as [Hloop Hfiles].
  split_and!.
  - apply Hiff. exact Hge.
  - rewrite Hloop. reflexivity.
  - exact Hfiles.
Defined.

(** Epoch 1 of [env_full]: every pass sees samples, and each accuracy is
    a percentage. *)
Lemma accuracy_percentage_bounded_witness :
  (∃ epoch_loss epoch_acc s',
     train_pass env_full 1 (setup env_full) = (Ok (epoch_loss, Fin epoch_acc), s') ∧
     (0 <= epoch_acc)%Q ∧ (epoch_acc <= 100)%Q) ∧
  (∃ val_epoch_loss val_epoch_acc s',
     val_pass env_full 1 (setup env_full) = (Ok (val_epoch_loss, Fin val_epoch_acc), s') ∧
     (0 <= val_epoch_acc)%Q ∧ (val_epoch_acc <= 100)%Q) ∧
  (∃ test_epoch_acc s',
     test_pass env_full 1 (setup env_full) = (Ok (Fin test_epoch_acc), s') ∧
     (0 <= test_epoch_acc)%Q ∧ (test_epoch_acc <= 100)%Q).
Proof.
  destruct (accuracy_percentage_bounded env_full 1 (setup env_full)) as (Htr & Hvl & Hte).
  split_and!.
  - destruct Htr as (_ & _ & _ & l & a & s' & _ & Hp & _ & H0 & H100).
    + split; eexists; reflexivity.
    + reflexivity.
    + exists l, a, s'. split_and!; assumption.
  - destruct Hvl as (_ & _ & _ & l & a & s' & _ & Hp & _ & H0 & H100).
    + reflexivity.
    + exists l, a, s'. split_and!; assumption.
  - destruct Hte as (_ & _ & a & s' & _ & Hp & _ & H0 & H100).
    + reflexivity.
    + exists a, s'. split_and!; assumption.
Defined.

(** The epoch loop of [env_stop5] ends by early stop in epoch 5, that of
    [env_full] by exhausting its range; both runs save the final model. *)
Lemma final_model_always_saved_witness :
  In ("checkpoints/final_model.pth"%string, StateDictFile 5)
     (files (train_model env_stop5).2) ∧
  In ("checkpoints/final_model.pth"%string, StateDictFile 13)
     (files (train_model env_full).2).
Proof.
  split.
  - edestruct (final_model_always_saved env_stop5 Break) as (s'' & _ & _ & _ & Hin);
      [vm_compute; reflexivity|]. exact Hin.
  - edestruct (final_model_always_saved env_full Continue) as (s'' & _ & _ & _ & Hin);
      [vm_compute; reflexivity|]. exact Hin.
Defined.

(** Epoch 5 of [env_full] completes below 80 and writes its checkpoint;
    epoch 5 of [env_stop5] stops early and writes none. *)
Lemma checkpoint_written_iff_witness :
  (let s := (epoch_loop env_full [1; 2; 3; 4]%nat (setup env_full)).2 in
   ∃ s4, epoch_body env_full 5 s = (Ok Continue, s4) ∧
     files s4 = [("checkpoints/checkpoint_epoch_5.pth"%string,
                  CheckpointFile 5 5 {| lr := 1 # 10000; adam := 5%nat |} (Fin (2 # 2)))]) ∧
  (let s := (epoch_loop env_stop5 [1; 2; 3; 4]%nat (setup env_stop5)).2 in
   ∃ s4, epoch_body env_stop5 5 s = (Ok Break, s4) ∧ files s4 = []).
Proof.
  split; intros s.
  - destruct (checkpoint_written_iff env_full 5 s) as [Hok _].
    edestruct Hok as (c & s4 & Hbody & Hfiles);
      [vm_compute; reflexivity | vm_compute; reflexivity | vm_compute; reflexivity |].
    exists s4. split.
    + rewrite Hbody. f_equal. f_equal.
      assert (Hc : (epoch_body env_full 5 s).1 = Ok Continue) by (vm_compute; reflexivity).
      rewrite Hbody in Hc. simpl in Hc. congruence.
    + rewrite Hfiles. reflexivity.
  - destruct (checkpoint_written_iff env_stop5 5 s) as [Hok _].
    edestruct Hok as (c & s4 & Hbody & Hfiles);
      [vm_compute; reflexivity | vm_compute; reflexivity | vm_compute; reflexivity |].
    exists s4. split.
    + rewrite Hbody. f_equal. f_equal.
      assert (Hc : (epoch_body env_stop5 5 s).1 = Ok Break) by (vm_compute; reflexivity).
      rewrite Hbody in Hc. simpl in Hc. congruence.
    + rewrite Hfiles. reflexivity.
Defined.

(** [env_stop5]: the validation pass returns its two metrics and leaves
    the lists alone; the loop ends, and the plot fails on [val_losses]. *)
Lemma validation_metrics_never_recorded_witness :
  (∃ val_epoch_loss val_epoch_acc s',
     val_pass env_stop5 1 (setup env_stop5) = (Ok (val_epoch_loss, val_epoch_acc), s') ∧
     locals s' !! "train_losses" = Some [] ∧
     locals s' !! "train_accs" = Some []) ∧
  (train_model env_stop5).1 = Err (NameError "val_losses").
Proof.
  destruct (validation_metrics_never_recorded env_stop5) as (_ & Hval & _ & _ & Hplot).
  split.
  - destruct (Hval 1%nat (setup env_stop5)) as (l & a & s' & Hp & Hl & Ha).
    + reflexivity.
    + exists l, a, s'. split_and!; [exact Hp | rewrite Hl | rewrite Ha]; reflexivity.
  - eapply Hplot. vm_compute. reflexivity.
Defined.

(** A run without training samples, one without validation samples, one
    whose test loader yields nothing, and one whose test loader yields an
    empty batch. *)
Lemma zero_samples_outcome_witness :
  (∃ s', train_model env_no_train = (Err ZeroDivisionError, s') ∧ files s' = []) ∧
  (∃ s', train_model env_no_val = (Err ZeroDivisionError, s') ∧ files s' = []) ∧
  (∃ s', train_model env_no_test = (Err (AttributeError "double"), s') ∧ files s' = []) ∧
  (∃ s4, epoch_body env_empty_test_batch 1 (setup env_empty_test_batch) = (Ok Continue, s4)).
Proof.
  split_and!.
  - destruct (zero_samples_outcome env_no_train [] 1 (seq 2 12) (setup env_no_train))
      as (H & _); [reflexivity | reflexivity |].
    apply H. reflexivity.
  - destruct (zero_samples_outcome env_no_val [] 1 (seq 2 12) (setup env_no_val))
      as (_ & H & _); [reflexivity | reflexivity |].
    apply H; reflexivity.
  - destruct (zero_samples_outcome env_no_test [] 1 (seq 2 12) (setup env_no_test))
      as (_ & _ & H & _); [reflexivity | reflexivity |].
    apply H; reflexivity.
  - destruct (zero_samples_outcome env_empty_test_batch [] 1 (seq 2 12)
                (setup env_empty_test_batch))
      as (_ & _ & _ & H); [reflexivity | reflexivity |].
    destruct H as (tr & vl & s1 & s2 & s3 & s4 & _ & _ & _ & Hbody);
      [reflexivity | reflexivity | discriminate | reflexivity |].
    exists s4. exact Hbody.
Defined.

(** C9 as stated fails: the test pass of epoch 1 of [env_no_test] sees no
    sample, and the run ends with [AttributeError], not with a division
    by zero. *)
Lemma zero_test_samples_no_division_error :
  samples (dataloaders env_no_test test 1) = 0 ∧
  (train_model env_no_test).1 = Err (AttributeError "double") ∧
  (train_model env_no_test).1 ≠ Err ZeroDivisionError.
Proof. vm_compute. split_and!; [reflexivity | reflexivity | discriminate]. Qed.

(** With a test loader that yields an empty batch in every epoch, no pass
    divides by zero with an error: the run goes through all epochs and
    writes both checkpoints and the final model. *)
Example empty_test_batches_run :
  samples (dataloaders env_empty_test_batch test 1) = 0 ∧
  (train_model env_empty_test_batch).1 = Err (NameError "val_losses") ∧
  map fst (files (train_model env_empty_test_batch).2) =
    ["checkpoints/checkpoint_epoch_5.pth"; "checkpoints/checkpoint_epoch_10.pth";
     "checkpoints/final_model.pth"].
Proof. vm_compute. split_and!; reflexivity. Qed.

(** [env_stop2] stops in epoch 2: the lists hold the one prediction and
    the one label of that epoch's test pass. *)
Lemma confusion_lists_are_last_test_pass_witness :
  let s' := (epoch_loop env_stop2 [1; 2; 3]%nat (setup env_stop2)).2 in
  (epoch_loop env_stop2 [1; 2; 3]%nat (setup env_stop2)).1 = Ok Break ∧
  locals s' !! "all_preds" = Some [PInt 2] ∧
  locals s' !! "all_labels" = Some [PInt 2].
Proof.
  intros s'.
  destruct (confusion_lists_are_last_test_pass env_stop2) as [_ Hlast].
  edestruct (Hlast [1%nat] 2%nat [3%nat] (setup env_stop2)) as (Hloop & Hp & Hl);
    [vm_compute; reflexivity | vm_compute; reflexivity | left; reflexivity |].
  change ([1%nat] ++ [2%nat; 3%nat]) with [1%nat; 2%nat; 3%nat] in Hloop.
  subst s'. rewrite Hloop. cbn [fst snd]. split_and!.
  - reflexivity.
  - rewrite Hp. reflexivity.
  - rewrite Hl. reflexivity.
Defined.

(** Had the scheduler been stepped once per epoch, the tenth step would
    have divided the learning rate by ten. *)
Example stepped_scheduler_would_decay :
  lr (Nat.iter 10 (λ so, StepLR_step so.1 so.2)
        (sched (setup env_full), optim (setup env_full))).2 = 1 # 100000.
Proof. reflexivity. Qed.

(** The run of [env_full]: thirteen epochs, two checkpoints, the final
    model, then the [NameError]; no image file. *)
Example full_run_writes_no_plot :
  (train_model env_full).1 = Err (NameError "val_losses") ∧
  map fst (files (train_model env_full).2) =
    ["checkpoints/checkpoint_epoch_5.pth"; "checkpoints/checkpoint_epoch_10.pth";
     "checkpoints/final_model.pth"].
Proof. vm_compute. split; reflexivity. Qed.

(** Three completed epochs of [env_full]: three entries in each list. *)
Lemma history_lists_grow_in_lockstep_witness :
  ∃ l a,
    locals (epoch_loop env_full [1; 2; 3]%nat (setup env_full)).2 !! "train_losses" = Some l ∧
    locals (epoch_loop env_full [1; 2; 3]%nat (setup env_full)).2 !! "train_accs" = Some a ∧
    length l = 3%nat ∧ length a = 3%nat.
Proof.
  destruct (history_lists_grow_in_lockstep env_full [1; 2; 3]%nat)
    as (l & a & Hl & Ha & Heq & _ & Hcont).
  assert (Hlen : length l = 3%nat) by (apply Hcont; vm_compute; reflexivity).
  exists l, a. split_and!; [exact Hl | exact Ha | exact Hlen | ].
  rewrite <- Heq. exact Hlen.
Defined.

(** The loop of [env_full] runs through its range: both checkpoints and
    the final model. *)
Lemma run_writes_only_model_files_witness :
  map fst (files (train_model env_full).2) =
    ["checkpoints/checkpoint_epoch_5.pth"; "checkpoints/checkpoint_epoch_10.pth";
     "checkpoints/final_model.pth"].
Proof.
  destruct (run_writes_only_model_files env_full) as [_ Hfull].
  apply Hfull. vm_compute. reflexivity.
Defined.





(** With a criterion that returns [nan], the first epoch of [env_nan]
    reports a [nan] training loss and a [nan] validation loss and raises
    nothing. *)
Lemma nan_loss_is_silent_witness :
  (∃ epoch_acc s',
     @train_pass toy_nan env_nan 1 (@setup toy_nan env_nan) = (Ok (NaN, Fin epoch_acc), s')) ∧
  (∃ val_epoch_acc s',
     @val_pass toy_nan env_nan 1 (@setup toy_nan env_nan) = (Ok (NaN, Fin val_epoch_acc), s')).
Proof.
  destruct (@nan_loss_is_silent toy_nan env_nan 1 (@setup toy_nan env_nan)) as [Htr Hvl].
  split.
  - destruct (Htr [(0, 0); (1, 1)] []) as (a & s' & Hp & _);
      [split; eexists; reflexivity | reflexivity | reflexivity | reflexivity |].
    exists a, s'. exact Hp.
  - destruct (Hvl [(0, 0)]) as (a & s' & Hp & _);
      [left; reflexivity | reflexivity | reflexivity |].
    exists a, s'. exact Hp.
Defined.
